(** * APIProfiler: per-thread region timing, accumulation and periodic flush

    A verification model of [include/profiler.h].  The header has two build
    variants selected by the preprocessor ([API_PROFILER_UNIX] and
    [API_PROFILER_WINDOWS]); both are embedded below, each in a module of
    its own, with the source's names. *)

From Stdlib Require Import ZArith Lia List Bool String Ascii.
From Stdlib Require Import DecimalString HexadecimalString.
From Stdlib Require Import Floats.SpecFloat.
Import ListNotations.

Local Open Scope Z_scope.

(* ================================================================== *)
(** * Machine arithmetic *)

(** [long long] / [INT64]: 64-bit two's complement.  Signed overflow is
    undefined in C++; the model writes out the wrap-around that the
    targeted machines perform. *)
Definition min_ll : Z := - 2 ^ 63.
Definition max_ll : Z := 2 ^ 63 - 1.

Definition wrap64 (z : Z) : Z := (z + 2 ^ 63) mod 2 ^ 64 - 2 ^ 63.

(** The low 32 bits read as a signed [int] (what [%d] fetches). *)
Definition wrap32 (z : Z) : Z := (z + 2 ^ 31) mod 2 ^ 32 - 2 ^ 31.

Definition in_ll (z : Z) : Prop := min_ll <= z <= max_ll.

(** Integer-valued floating point.  A C++ expression such as
    [tv_sec * 1e9 + tv_nsec] is evaluated in [double]; every value that
    occurs is an integer, so the double is represented by the integer it
    denotes and each operation rounds its exact result to the nearest
    value with [prec] significant bits, ties to the even significand
    (the IEEE 754 default).  [prec] is 53 for [double] and 24 for
    [float]. *)
Definition round_to_prec (prec : Z) (z : Z) : Z :=
  let a := Z.abs z in
  let e := Z.log2 a + 1 - prec in
  if e <=? 0 then z
  else
    let q := a / 2 ^ e in
    let r := a mod 2 ^ e in
    let h := 2 ^ (e - 1) in
    let m := if r <? h then q
             else if h <? r then q + 1
             else if Z.even q then q else q + 1 in
    Z.sgn z * (m * 2 ^ e).

Definition to_double : Z -> Z := round_to_prec 53.
Definition to_float : Z -> Z := round_to_prec 24.

(** Conversion of an (integer-valued) double to [long long].  In range it
    is exact; out of range it is undefined in C++ and yields the
    "integer indefinite" value on x86-64. *)
Definition to_ll (z : Z) : Z :=
  if (min_ll <=? z) && (z <=? max_ll) then z else min_ll.

Arguments wrap64 : simpl never.
Arguments wrap32 : simpl never.
Arguments round_to_prec : simpl never.
Arguments to_double : simpl never.
Arguments to_float : simpl never.
Arguments to_ll : simpl never.

(* ================================================================== *)
(** * Floating point values handed to [printf] *)

(** The quantities that [Flush] prints are genuine fractions; they are
    computed with the IEEE 754 operations of [SpecFloat], in binary64 for
    [double] and binary32 for [float]. *)
Definition double_of_Z (z : Z) : spec_float := binary_normalize 53 1024 z 0 false.
Definition double_mul : spec_float -> spec_float -> spec_float := SFmul 53 1024.
Definition double_div : spec_float -> spec_float -> spec_float := SFdiv 53 1024.

Definition float_of_Z (z : Z) : spec_float := binary_normalize 24 128 z 0 false.
Definition float_mul : spec_float -> spec_float -> spec_float := SFmul 24 128.
Definition float_div : spec_float -> spec_float -> spec_float := SFdiv 24 128.

(** The integer a finite float denotes, truncated toward zero. *)
Definition SF_trunc (x : spec_float) : Z :=
  match x with
  | S754_finite s m e =>
      let a := if 0 <=? e then Zpos m * 2 ^ e else Zpos m / 2 ^ (- e) in
      if s then - a else a
  | _ => 0
  end.

(** [x] is a non-zero number (neither a zero, an infinity nor a NaN). *)
Definition SF_nonzero (x : spec_float) : bool :=
  match x with
  | S754_finite _ _ _ => true
  | _ => false
  end.

(* ================================================================== *)
(** * printf *)

Definition dquote : string := String "034"%char EmptyString.
Definition newline : string := String "010"%char EmptyString.

Definition fmt_dec (z : Z) : string :=
  DecimalString.NilZero.string_of_int (Z.to_int z).

Definition fmt_hex (z : Z) : string :=
  HexadecimalString.NilZero.string_of_uint (N.to_hex_uint (Z.to_N z)).

Fixpoint zeros (n : nat) : string :=
  match n with
  | O => EmptyString
  | S k => String "0"%char (zeros k)
  end.

(** [n] printed with at least [width] digits. *)
Definition fmt_padded (width : nat) (n : Z) : string :=
  let d := fmt_dec n in
  (zeros (width - String.length d) ++ d)%string.

(** [m * 2^e * 10^digits] rounded to the nearest integer, ties to even. *)
Definition scaled_round (m e : Z) (digits : nat) : Z :=
  let num := m * 10 ^ Z.of_nat digits in
  if 0 <=? e then num * 2 ^ e
  else
    let den := 2 ^ (- e) in
    let q := num / den in
    let r := num mod den in
    if 2 * r <? den then q
    else if den <? 2 * r then q + 1
    else if Z.even q then q else q + 1.

(** [%.<digits>f]: fixed notation, the exact binary value correctly
    rounded to [digits] decimals. *)
Definition fmt_fixed (digits : nat) (x : spec_float) : string :=
  let sign (s : bool) := (if s then "-" else "")%string in
  let body (n : Z) :=
    let p := 10 ^ Z.of_nat digits in
    (fmt_dec (n / p) ++
     match digits with
     | O => ""
     | _ => "." ++ fmt_padded digits (n mod p)
     end)%string in
  match x with
  | S754_zero s => (sign s ++ body 0)%string
  | S754_infinity s => (sign s ++ "inf")%string
  | S754_nan => "nan"%string
  | S754_finite s m e => (sign s ++ body (scaled_round (Zpos m) e digits))%string
  end.

Inductive printf_arg :=
| arg_int (z : Z)
| arg_str (s : string)
| arg_double (x : spec_float).

(** Where the scan of the format string stands: in literal text, or
    inside a conversion specification after [%], with the precision read
    so far and the number of [l] length modifiers seen. *)
Inductive printf_mode :=
| in_text
| in_spec (precision : option nat) (longs : nat).

Definition digit_of (c : ascii) : option nat :=
  let n := nat_of_ascii c in
  if (48 <=? n)%nat && (n <=? 57)%nat then Some (n - 48)%nat else None.

(** The conversions the profiler uses: [%d], [%x], [%s], [%f] with an
    optional [.N] precision and [l]/[ll] length modifiers, and [%%].
    [%d] and [%x] without a length modifier read 32 bits of the argument.
    A conversion with no matching argument prints nothing. *)
Fixpoint printf_from (mode : printf_mode) (fmt : string)
    (args : list printf_arg) : string :=
  match fmt with
  | EmptyString => EmptyString
  | String c rest =>
      match mode with
      | in_text =>
          if Ascii.eqb c "%"%char then printf_from (in_spec None O) rest args
          else String c (printf_from in_text rest args)
      | in_spec prec longs =>
          if Ascii.eqb c "%"%char then
            String "%"%char (printf_from in_text rest args)
          else if Ascii.eqb c "."%char then
            printf_from (in_spec (Some O) longs) rest args
          else if Ascii.eqb c "l"%char then
            printf_from (in_spec prec (S longs)) rest args
          else
            match digit_of c, prec with
            | Some d, Some p =>
                printf_from (in_spec (Some (10 * p + d)%nat) longs) rest args
            | Some _, None => printf_from mode rest args
            | None, _ =>
                let field :=
                  match args with
                  | arg_int z :: _ =>
                      if Ascii.eqb c "d"%char then
                        fmt_dec (match longs with O => wrap32 z | _ => wrap64 z end)
                      else if Ascii.eqb c "x"%char then
                        fmt_hex (match longs with
                                 | O => z mod 2 ^ 32
                                 | _ => z mod 2 ^ 64
                                 end)
                      else ""%string
                  | arg_str s :: _ =>
                      if Ascii.eqb c "s"%char then s else ""%string
                  | arg_double x :: _ =>
                      if Ascii.eqb c "f"%char then
                        fmt_fixed (match prec with Some p => p | None => 6%nat end) x
                      else ""%string
                  | [] => ""%string
                  end in
                (field ++ printf_from in_text rest (tl args))%string
            end
      end
  end.

Definition printf (fmt : string) (args : list printf_arg) : string :=
  printf_from in_text fmt args.

Arguments double_of_Z : simpl never.
Arguments double_mul : simpl never.
Arguments double_div : simpl never.
Arguments float_of_Z : simpl never.
Arguments float_mul : simpl never.
Arguments float_div : simpl never.
Arguments fmt_dec : simpl never.
Arguments fmt_hex : simpl never.
Arguments fmt_fixed : simpl never.
Arguments printf : simpl never.

(* ================================================================== *)
(** * The Unix build ([API_PROFILER_UNIX]) *)

Module Unix.

(** [struct timespec] of [<time.h>]. *)
Record timespec := mk_timespec { tv_sec : Z; tv_nsec : Z }.

(** [APIProfiler::ThreadInfo].  One object per thread and region
    ([thread_local]). *)
Record ThreadInfo := mk_ThreadInfo {
  lastReportTime : timespec;
  accumulator : Z;
  hitCount : Z;
  name : string
}.

(** An [APIProfiler] object, the scope guard.  Its [m_threadInfo] points
    to the record of the state it is run on. *)
Record APIProfiler := mk_APIProfiler { m_start : timespec }.

(** What a thread sees: the process-wide [s_reportInterval] and its own
    record of one region. *)
Record State := mk_State {
  s_reportInterval : Z;
  threadInfo : ThreadInfo
}.

(** What a run lets one observe, in order of occurrence. *)
Inductive Event :=
| FlushCalled                 (* [Flush] was entered *)
| IntervalComputed (v : Z)    (* [s_reportInterval] was assigned *)
| Printed (line : string).    (* a line went to [stdout] *)

Definition APIProfiler_ReportIntervalSecs : Z := 1.

(** [DEFINE_API_PROFILER(name)]: [{ {0, 0}, 0, 0, #name }]. *)
Definition DEFINE_API_PROFILER (name : string) : ThreadInfo :=
  mk_ThreadInfo (mk_timespec 0 0) 0 0 name.

(** Process start: [long long APIProfiler::s_reportInterval = 0]. *)
Definition initial (name : string) : State :=
  mk_State 0 (DEFINE_API_PROFILER name).

(** [long long xNanoSec = x.tv_sec * 1e9 + x.tv_nsec;]  The right-hand
    side is a [double] expression. *)
Definition NanoSec (t : timespec) : Z :=
  to_ll (to_double (to_double (tv_sec t * 10 ^ 9) + tv_nsec t)).

Definition format : string :=
  ("TID %ld time spent in " ++ dquote ++ "%s" ++ dquote ++
   ": %.0f/%.0f microsec %.1f%% %lldx" ++ newline)%string.

(** The lazy initialisation that opens [Flush]:
    [if (s_reportInterval == 0) s_reportInterval = ...;] *)
Definition initialize (st : State) : State * list Event :=
  if s_reportInterval st =? 0 then
    let v := to_ll (to_double (10 ^ 6 * APIProfiler_ReportIntervalSecs)) in
    (mk_State v (threadInfo st), [IntervalComputed v])
  else (st, []).

(** The integer that [Flush] converts to [double] and divides by
    [1000.0f]: [(end.tv_sec - last.tv_sec) * 1000000000LL +
    (end.tv_nsec - last.tv_nsec)]. *)
Definition interval_ns (last end_ : timespec) : Z :=
  wrap64 (wrap64 (wrap64 (tv_sec end_ - tv_sec last) * 1000000000)
          + wrap64 (tv_nsec end_ - tv_nsec last)).

Section Thread.

(** The value of [pthread_self()] in the running thread. *)
Variable pthread_self : Z.

(** [APIProfiler::APIProfiler(ThreadInfo *threadInfo)], with the reading
    [now] of [clock_gettime(CLOCK_MONOTONIC, &m_start)]. *)
Definition constructor (now : timespec) : APIProfiler :=
  mk_APIProfiler now.

(** The [printf] call of [Flush]. *)
Definition report (info : ThreadInfo) (end_ : timespec) : string :=
  let interval :=
    double_div (double_of_Z (interval_ns (lastReportTime info) end_))
               (double_of_Z 1000) in
  let measured := double_of_Z (accumulator info) in
  printf format
    [arg_int pthread_self;
     arg_str (name info);
     arg_double measured;
     arg_double interval;
     arg_double (double_div (double_mul (double_of_Z 100) measured) interval);
     arg_int (hitCount info)].

(** [void APIProfiler::Flush(timespec end)]. *)
Definition Flush (this : APIProfiler) (end_ : timespec) (st : State)
    : State * list Event :=
  let (st1, init_events) := initialize st in
  let info := threadInfo st1 in
  if (tv_sec (lastReportTime info) =? 0) && (tv_nsec (lastReportTime info) =? 0)
  then
    (mk_State (s_reportInterval st1)
       (mk_ThreadInfo (m_start this) (accumulator info) (hitCount info) (name info)),
     FlushCalled :: init_events)
  else
    (mk_State (s_reportInterval st1) (mk_ThreadInfo end_ 0 0 (name info)),
     FlushCalled :: init_events ++ [Printed (report info end_)]).

(** [APIProfiler::~APIProfiler()], with the reading [end_] of
    [clock_gettime(CLOCK_MONOTONIC, &end)]. *)
Definition destructor (this : APIProfiler) (end_ : timespec) (st : State)
    : State * list Event :=
  let info := threadInfo st in
  let startNanoSec := NanoSec (m_start this) in
  let endNanoSec := NanoSec end_ in
  let lastReportNanoSec := NanoSec (lastReportTime info) in
  let info1 :=
    mk_ThreadInfo (lastReportTime info)
      (wrap64 (accumulator info + wrap64 (endNanoSec - startNanoSec) ÷ 1000))
      (wrap64 (hitCount info + 1))
      (name info) in
  let st1 := mk_State (s_reportInterval st) info1 in
  if wrap64 (endNanoSec - lastReportNanoSec) ÷ 1000 >? s_reportInterval st
  then Flush this end_ st1
  else (st1, []).

(** What a thread does to this state, one step at a time: a guard
    constructed at [start] goes out of scope at [end_]; or [Flush] runs
    for another record, in this or another thread, of which this state
    sees the lazy initialisation. *)
Inductive Op :=
| Scope (start end_ : timespec)
| ForeignFlush.

Definition step (op : Op) (st : State) : State * list Event :=
  match op with
  | Scope start end_ => destructor (constructor start) end_ st
  | ForeignFlush => (fst (initialize st), [])
  end.

Fixpoint run (ops : list Op) (st : State) : State * list Event :=
  match ops with
  | [] => (st, [])
  | op :: rest =>
      let (st1, events1) := step op st in
      let (st2, events2) := run rest st1 in
      (st2, events1 ++ events2)
  end.

End Thread.

(** [clock_gettime(CLOCK_MONOTONIC, ...)] when the monotonic clock stands
    at [c] nanoseconds. *)
Definition clock_gettime (c : Z) : timespec :=
  mk_timespec (c / 10 ^ 9) (c mod 10 ^ 9).

(** ** Vocabulary of the statements *)

(** The clock delivers normalised, non-negative readings. *)
Definition clock_time (t : timespec) : Prop :=
  0 <= tv_sec t < 2 ^ 32 /\ 0 <= tv_nsec t < 10 ^ 9.

(** The reading in nanoseconds, as a number. *)
Definition ns (t : timespec) : Z := tv_sec t * 10 ^ 9 + tv_nsec t.

(** The duration in microseconds that the destructor computes between
    two readings. *)
Definition elapsed (start end_ : timespec) : Z :=
  wrap64 (NanoSec end_ - NanoSec start) ÷ 1000.

Definition unset (t : timespec) : Prop := tv_sec t = 0 /\ tv_nsec t = 0.

(** The record once the destructor has added a guard to it. *)
Definition counted (start end_ : timespec) (info : ThreadInfo) : ThreadInfo :=
  mk_ThreadInfo (lastReportTime info)
    (wrap64 (accumulator info + elapsed start end_))
    (wrap64 (hitCount info + 1))
    (name info).

Definition clock_op (op : Op) : Prop :=
  match op with
  | Scope start end_ => clock_time start /\ clock_time end_
  | ForeignFlush => True
  end.

Definition printed (events : list Event) : list string :=
  flat_map (fun e => match e with Printed l => [l] | _ => [] end) events.

Definition flush_calls (events : list Event) : nat :=
  List.length (filter (fun e => match e with FlushCalled => true | _ => false end) events).

Definition computations (events : list Event) : list Z :=
  flat_map (fun e => match e with IntervalComputed v => [v] | _ => [] end) events.

(** The guards of a sequence of steps, in order of destruction. *)
Definition scopes (ops : list Op) : list (timespec * timespec) :=
  flat_map (fun op => match op with
                      | Scope a b => [(a, b)]
                      | ForeignFlush => []
                      end) ops.

Definition total_elapsed (guards : list (timespec * timespec)) : Z :=
  fold_right (fun g acc => elapsed (fst g) (snd g) + acc) 0 guards.

(** The steps of guards given by the clock values at construction and
    destruction. *)
Definition scope_ops (guards : list (Z * Z)) : list Op :=
  map (fun g => Scope (clock_gettime (fst g)) (clock_gettime (snd g))) guards.

(** A step none of whose readings is the zero timestamp. *)
Definition stamped_op (op : Op) : Prop :=
  match op with
  | Scope start end_ => ~ unset start /\ ~ unset end_
  | ForeignFlush => True
  end.

(** The time the guards really spanned, in nanoseconds. *)
Definition total_ns (guards : list (timespec * timespec)) : Z :=
  fold_right (fun g acc => (ns (snd g) - ns (fst g)) + acc) 0 guards.

(** A guard as the clock makes it: two readings, the second not before
    the first. *)
Definition clock_guard (g : timespec * timespec) : Prop :=
  clock_time (fst g) /\ clock_time (snd g) /\ ns (fst g) <= ns (snd g).

(** A state as runs from [initial] produce them: while
    [s_reportInterval] is still zero no record has left the unset
    timestamp, and once computed it is the microseconds of one second. *)
Definition consistent (st : State) : Prop :=
  ((s_reportInterval st = 0 /\ unset (lastReportTime (threadInfo st)))
   \/ s_reportInterval st = 1000000)
  /\ clock_time (lastReportTime (threadInfo st)).

Section Outcomes.
Variable tid : Z.

(** The three ways a destruction can go. *)
Inductive outcome (start end_ : timespec) (st : State)
  : State * list Event -> Prop :=
| outcome_quiet :
    elapsed (lastReportTime (threadInfo st)) end_ <= s_reportInterval st ->
    outcome start end_ st
      (mk_State (s_reportInterval st) (counted start end_ (threadInfo st)), [])
| outcome_first :
    s_reportInterval st < elapsed (lastReportTime (threadInfo st)) end_ ->
    unset (lastReportTime (threadInfo st)) ->
    outcome start end_ st
      (mk_State (s_reportInterval (fst (initialize st)))
         (mk_ThreadInfo start
            (accumulator (counted start end_ (threadInfo st)))
            (hitCount (counted start end_ (threadInfo st)))
            (name (threadInfo st))),
       FlushCalled :: snd (initialize st))
| outcome_report :
    s_reportInterval st < elapsed (lastReportTime (threadInfo st)) end_ ->
    ~ unset (lastReportTime (threadInfo st)) ->
    outcome start end_ st
      (mk_State (s_reportInterval (fst (initialize st)))
         (mk_ThreadInfo end_ 0 0 (name (threadInfo st))),
       FlushCalled :: snd (initialize st) ++
       [Printed (report tid (counted start end_ (threadInfo st)) end_)]).

End Outcomes.

Arguments NanoSec : simpl never.
Arguments interval_ns : simpl never.
Arguments elapsed : simpl never.
Arguments report : simpl never.
Arguments Flush : simpl never.
Arguments destructor : simpl never.
Arguments initialize : simpl never.
Arguments total_elapsed : simpl never.
Arguments total_ns : simpl never.

End Unix.
(* ================================================================== *)
(** * The Windows build ([API_PROFILER_WINDOWS]) *)

Module Windows.

(** [APIProfiler::ThreadInfo], all counters [INT64]. *)
Record ThreadInfo := mk_ThreadInfo {
  lastReportTime : Z;
  accumulator : Z;
  hitCount : Z;
  name : string
}.

(** An [APIProfiler] object; [m_threadInfo] points to the record of the
    state it is run on. *)
Record APIProfiler := mk_APIProfiler { m_start : Z }.

Record State := mk_State {
  s_ooFrequency : spec_float;
  s_reportInterval : Z;
  threadInfo : ThreadInfo
}.

Inductive Event :=
| FlushCalled
| IntervalComputed (v : Z)
| Printed (line : string).

Definition APIProfiler_ReportIntervalSecs : Z := 1.

(** [DEFINE_API_PROFILER(name)]: [{ 0, 0, 0, #name }]. *)
Definition DEFINE_API_PROFILER (name : string) : ThreadInfo :=
  mk_ThreadInfo 0 0 0 name.

(** [float APIProfiler::s_ooFrequency = 0;
     INT64 APIProfiler::s_reportInterval = 0;] *)
Definition initial (name : string) : State :=
  mk_State (S754_zero false) 0 (DEFINE_API_PROFILER name).

Definition format : string :=
  ("TID 0x%x time spent in " ++ dquote ++ "%s" ++ dquote ++
   ": %.0f/%.0f microsec %.1f%% %dx" ++ newline)%string.

Section Thread.

(** What [QueryPerformanceFrequency] reports, and the value of
    [GetCurrentThreadId()] in the running thread. *)
Variable frequency : Z.
Variable GetCurrentThreadId : Z.

(** [static_cast<INT64>(freq.QuadPart * APIProfiler_ReportIntervalSecs)],
    a [float] product. *)
Definition interval_value : Z :=
  to_ll (to_float (to_float frequency * APIProfiler_ReportIntervalSecs)).

(** The lazy initialisation that opens [Flush]. *)
Definition initialize (st : State) : State * list Event :=
  if s_reportInterval st =? 0 then
    (mk_State (float_div (float_of_Z 1) (float_of_Z frequency))
       interval_value (threadInfo st),
     [IntervalComputed interval_value])
  else (st, []).

(** [APIProfiler::APIProfiler(ThreadInfo *threadInfo)], with the reading
    [now] of [QueryPerformanceCounter]. *)
Definition constructor (now : Z) : APIProfiler :=
  mk_APIProfiler now.

(** The [printf] call of [Flush]. *)
Definition report (ooFrequency : spec_float) (info : ThreadInfo) (end_ : Z)
    : string :=
  let interval :=
    float_mul (float_of_Z (wrap64 (end_ - lastReportTime info))) ooFrequency in
  let measured := float_mul (float_of_Z (accumulator info)) ooFrequency in
  printf format
    [arg_int GetCurrentThreadId;
     arg_str (name info);
     arg_double (float_mul measured (float_of_Z 1000000));
     arg_double (float_mul interval (float_of_Z 1000000));
     arg_double (float_div (float_mul (float_of_Z 100) measured) interval);
     arg_int (hitCount info)].

(** [void APIProfiler::Flush(INT64 end)]. *)
Definition Flush (this : APIProfiler) (end_ : Z) (st : State)
    : State * list Event :=
  let (st1, init_events) := initialize st in
  let info := threadInfo st1 in
  if lastReportTime info =? 0
  then
    (mk_State (s_ooFrequency st1) (s_reportInterval st1)
       (mk_ThreadInfo (m_start this) (accumulator info) (hitCount info) (name info)),
     FlushCalled :: init_events)
  else
    (mk_State (s_ooFrequency st1) (s_reportInterval st1)
       (mk_ThreadInfo end_ 0 0 (name info)),
     FlushCalled :: init_events ++ [Printed (report (s_ooFrequency st1) info end_)]).

(** [APIProfiler::~APIProfiler()], with the reading [end_] of
    [QueryPerformanceCounter]. *)
Definition destructor (this : APIProfiler) (end_ : Z) (st : State)
    : State * list Event :=
  let info := threadInfo st in
  let info1 :=
    mk_ThreadInfo (lastReportTime info)
      (wrap64 (accumulator info + wrap64 (end_ - m_start this)))
      (wrap64 (hitCount info + 1))
      (name info) in
  let st1 := mk_State (s_ooFrequency st) (s_reportInterval st) info1 in
  if wrap64 (end_ - lastReportTime info) >? s_reportInterval st
  then Flush this end_ st1
  else (st1, []).

Inductive Op :=
| Scope (start end_ : Z)
| ForeignFlush.

Definition step (op : Op) (st : State) : State * list Event :=
  match op with
  | Scope start end_ => destructor (constructor start) end_ st
  | ForeignFlush => (fst (initialize st), [])
  end.

Fixpoint run (ops : list Op) (st : State) : State * list Event :=
  match ops with
  | [] => (st, [])
  | op :: rest =>
      let (st1, events1) := step op st in
      let (st2, events2) := run rest st1 in
      (st2, events1 ++ events2)
  end.

End Thread.

(** [QueryPerformanceCounter] when the counter stands at [c] ticks. *)
Definition QueryPerformanceCounter (c : Z) : Z := c.

(** ** Vocabulary of the statements *)

(** The performance counter delivers non-negative readings. *)
Definition clock_time (t : Z) : Prop := 0 <= t <= max_ll.

(** The number of ticks that the destructor computes between two
    readings. *)
Definition elapsed (start end_ : Z) : Z := wrap64 (end_ - start).

Definition unset (t : Z) : Prop := t = 0.

(** The record once the destructor has added a guard to it. *)
Definition counted (start end_ : Z) (info : ThreadInfo) : ThreadInfo :=
  mk_ThreadInfo (lastReportTime info)
    (wrap64 (accumulator info + elapsed start end_))
    (wrap64 (hitCount info + 1))
    (name info).

Definition clock_op (op : Op) : Prop :=
  match op with
  | Scope start end_ => clock_time start /\ clock_time end_
  | ForeignFlush => True
  end.

Definition scope_ops (guards : list (Z * Z)) : list Op :=
  map (fun g => Scope (QueryPerformanceCounter (fst g))
                      (QueryPerformanceCounter (snd g))) guards.

(** A step none of whose readings is zero. *)
Definition stamped_op (op : Op) : Prop :=
  match op with
  | Scope start end_ => ~ unset start /\ ~ unset end_
  | ForeignFlush => True
  end.

Definition printed (events : list Event) : list string :=
  flat_map (fun e => match e with Printed l => [l] | _ => [] end) events.

Definition flush_calls (events : list Event) : nat :=
  List.length (filter (fun e => match e with FlushCalled => true | _ => false end) events).

Definition computations (events : list Event) : list Z :=
  flat_map (fun e => match e with IntervalComputed v => [v] | _ => [] end) events.

Definition scopes (ops : list Op) : list (Z * Z) :=
  flat_map (fun op => match op with
                      | Scope a b => [(a, b)]
                      | ForeignFlush => []
                      end) ops.

Definition total_elapsed (guards : list (Z * Z)) : Z :=
  fold_right (fun g acc => elapsed (fst g) (snd g) + acc) 0 guards.

(** A state as runs from [initial] produce them. *)
Definition consistent (frequency : Z) (st : State) : Prop :=
  ((s_reportInterval st = 0 /\ unset (lastReportTime (threadInfo st)))
   \/ s_reportInterval st = interval_value frequency)
  /\ clock_time (lastReportTime (threadInfo st)).

(** The performance counter runs at a positive rate, far below
    [2^62] ticks per second. *)
Definition counter_rate (frequency : Z) : Prop := 0 < frequency < 2 ^ 62.

Section Outcomes.
Variable frequency : Z.
Variable tid : Z.

(** The three ways a destruction can go. *)
Inductive outcome (start end_ : Z) (st : State)
  : State * list Event -> Prop :=
| outcome_quiet :
    elapsed (lastReportTime (threadInfo st)) end_ <= s_reportInterval st ->
    outcome start end_ st
      (mk_State (s_ooFrequency st) (s_reportInterval st)
         (counted start end_ (threadInfo st)), [])
| outcome_first :
    s_reportInterval st < elapsed (lastReportTime (threadInfo st)) end_ ->
    unset (lastReportTime (threadInfo st)) ->
    outcome start end_ st
      (mk_State (s_ooFrequency (fst (initialize frequency st)))
         (s_reportInterval (fst (initialize frequency st)))
         (mk_ThreadInfo start
            (accumulator (counted start end_ (threadInfo st)))
            (hitCount (counted start end_ (threadInfo st)))
            (name (threadInfo st))),
       FlushCalled :: snd (initialize frequency st))
| outcome_report :
    s_reportInterval st < elapsed (lastReportTime (threadInfo st)) end_ ->
    ~ unset (lastReportTime (threadInfo st)) ->
    outcome start end_ st
      (mk_State (s_ooFrequency (fst (initialize frequency st)))
         (s_reportInterval (fst (initialize frequency st)))
         (mk_ThreadInfo end_ 0 0 (name (threadInfo st))),
       FlushCalled :: snd (initialize frequency st) ++
       [Printed (report tid (s_ooFrequency (fst (initialize frequency st)))
                   (counted start end_ (threadInfo st)) end_)]).

End Outcomes.

Arguments interval_value : simpl never.
Arguments elapsed : simpl never.
Arguments report : simpl never.
Arguments Flush : simpl never.
Arguments destructor : simpl never.
Arguments initialize : simpl never.
Arguments total_elapsed : simpl never.

End Windows.
(* ================================================================== *)
(** * The macros and the build-time switch *)

Section Instrumentation.

(** [#define ENABLE_API_PROFILER], 1 in the header as it stands. *)
Variable ENABLE_API_PROFILER : bool.

(** The build variant: its records, guards, clock readings and the two
    operations of the guard. *)
Variables ThreadInfo APIProfiler State Event Stamp : Type.
Variable define : string -> ThreadInfo.
Variable constructor : Stamp -> APIProfiler.
Variable destructor : APIProfiler -> Stamp -> State -> State * list Event.
Variable read_clock : Z -> Stamp.

(** [DEFINE_API_PROFILER(name)]: the storage of one record, or nothing. *)
Definition DEFINE_API_PROFILER (name : string) : option ThreadInfo :=
  if ENABLE_API_PROFILER then Some (define name) else None.

(** [API_PROFILER(name)]: a guard object declared in the enclosing block,
    or nothing. *)
Definition API_PROFILER (now : Stamp) : option APIProfiler :=
  if ENABLE_API_PROFILER then Some (constructor now) else None.

(** Code of the client, as far as the profiler is concerned: it acts and
    lets time pass, and some of its blocks begin with [API_PROFILER]. *)
Variable Action : Type.

Inductive Code :=
| Skip
| Client (a : Action) (duration : Z)
| Seq (c1 c2 : Code)
| Profiled (body : Code).

(** What an observer of the running thread sees. *)
Inductive Observation :=
| Did (a : Action)
| Profiler (e : Event).

(** Running code from a clock value and a profiler state.  A guard lives
    to the end of its block. *)
Fixpoint exec (c : Code) (clock : Z) (st : State)
    : Z * State * list Observation :=
  match c with
  | Skip => (clock, st, [])
  | Client a duration => (clock + duration, st, [Did a])
  | Seq c1 c2 =>
      let '(clock1, st1, obs1) := exec c1 clock st in
      let '(clock2, st2, obs2) := exec c2 clock1 st1 in
      (clock2, st2, obs1 ++ obs2)
  | Profiled body =>
      let guard := API_PROFILER (read_clock clock) in
      let '(clock1, st1, obs1) := exec body clock st in
      match guard with
      | Some this =>
          let (st2, events) := destructor this (read_clock clock1) st1 in
          (clock1, st2, obs1 ++ map Profiler events)
      | None => (clock1, st1, obs1)
      end
  end.

(** The same code with no instrumentation in it. *)
Fixpoint erase (c : Code) : Code :=
  match c with
  | Skip => Skip
  | Client a duration => Client a duration
  | Seq c1 c2 => Seq (erase c1) (erase c2)
  | Profiled body => erase body
  end.

Definition profiler_events (obs : list Observation) : list Event :=
  flat_map (fun o => match o with Profiler e => [e] | Did _ => [] end) obs.

(** The guards that running [c] from [clock] constructs and destroys, as
    (clock at construction, clock at destruction), in order of
    destruction; with the clock at the end. *)
Fixpoint guards_of (c : Code) (clock : Z) : Z * list (Z * Z) :=
  match c with
  | Skip => (clock, [])
  | Client _ duration => (clock + duration, [])
  | Seq c1 c2 =>
      let (clock1, g1) := guards_of c1 clock in
      let (clock2, g2) := guards_of c2 clock1 in
      (clock2, g1 ++ g2)
  | Profiled body =>
      let (clock1, g) := guards_of body clock in
      (clock1, g ++ [(clock, clock1)])
  end.

(** Client code takes time, never gives it back. *)
Fixpoint forward (c : Code) : Prop :=
  match c with
  | Skip => True
  | Client _ duration => 0 <= duration
  | Seq c1 c2 => forward c1 /\ forward c2
  | Profiled body => forward body
  end.

End Instrumentation.

Arguments DEFINE_API_PROFILER _ {ThreadInfo} _ _.
Arguments API_PROFILER _ {APIProfiler Stamp} _ _.
Arguments Skip {Action}.
Arguments Client {Action} _ _.
Arguments Seq {Action} _ _.
Arguments Profiled {Action} _.
Arguments Did {Event Action} _.
Arguments Profiler {Event Action} _.
Arguments exec _ {APIProfiler State Event Stamp} _ _ _ {Action} _ _ _.
Arguments erase {Action} _.
Arguments profiler_events {Event Action} _.
Arguments guards_of {Action} _ _.
Arguments forward {Action} _.
(* ================================================================== *)
(** * The lazy initialisation under racing threads *)

(** [if (s_reportInterval == 0) { s_reportInterval = ...; }] is a test
    and an assignment, and nothing keeps another thread from coming
    between the two.  A thread that found zero is inside the braces
    until it assigns; [value] is what it assigns. *)
Section Race.
Variable value : Z.

Inductive Access :=
| Test (thread : nat)
| Assign (thread : nat).

Record Shared := mk_Shared {
  interval : Z;
  inside : list nat
}.

Definition is_inside (t : nat) (sh : Shared) : bool :=
  existsb (Nat.eqb t) (inside sh).

(** One access of one thread, with the computation it makes, if any. *)
Definition access (a : Access) (sh : Shared) : Shared * list (nat * Z) :=
  match a with
  | Test t =>
      if is_inside t sh then (sh, [])
      else if interval sh =? 0
           then (mk_Shared (interval sh) (t :: inside sh), [])
           else (sh, [])
  | Assign t =>
      if is_inside t sh
      then (mk_Shared value
              (filter (fun u => negb (Nat.eqb t u)) (inside sh)),
            [(t, value)])
      else (sh, [])
  end.

(** The accesses of all threads in the order they happen. *)
Fixpoint schedule (accesses : list Access) (sh : Shared)
    : Shared * list (nat * Z) :=
  match accesses with
  | [] => (sh, [])
  | a :: rest =>
      let (sh1, log1) := access a sh in
      let (sh2, log2) := schedule rest sh1 in
      (sh2, log1 ++ log2)
  end.

(** How often thread [t] has computed the interval. *)
Definition computed_by (t : nat) (log : list (nat * Z)) : nat :=
  List.length (filter (fun c => Nat.eqb t (fst c)) log).

(** What holds of the shared variable and the computations so far. *)
Definition race_invariant (sh : Shared) (log : list (nat * Z)) : Prop :=
  (interval sh = 0 \/ interval sh = value) /\
  (log <> [] -> interval sh = value) /\
  (forall t, (computed_by t log <= 1)%nat) /\
  (forall t, is_inside t sh = true -> computed_by t log = O) /\
  (forall t v, In (t, v) log -> v = value).

End Race.

Arguments computed_by : simpl never.
(* ================================================================== *)
(** * Facts on the machine arithmetic *)

Lemma wrap64_id z : in_ll z -> wrap64 z = z.
Proof.
  unfold in_ll, min_ll, max_ll, wrap64. intros H.
  rewrite Z.mod_small; lia.
Qed.

Lemma wrap64_range z : in_ll (wrap64 z).
Proof.
  unfold in_ll, min_ll, max_ll, wrap64.
  pose proof (Z.mod_pos_bound (z + 2 ^ 63) (2 ^ 64) ltac:(lia)). lia.
Qed.

Lemma to_ll_id z : in_ll z -> to_ll z = z.
Proof.
  unfold in_ll, to_ll. intros [H1 H2].
  destruct (Z.leb_spec min_ll z), (Z.leb_spec z max_ll); simpl; lia.
Qed.

Lemma round_to_prec_0 prec : round_to_prec prec 0 = 0.
Proof.
  unfold round_to_prec. change (Z.abs 0) with 0. change (Z.log2 0) with 0.
  destruct (0 + 1 - prec <=? 0); reflexivity.
Qed.

Lemma round_to_prec_small prec z :
  Z.abs z < 2 ^ prec -> 0 < prec -> round_to_prec prec z = z.
Proof.
  intros H Hp.
  destruct (Z.eq_dec z 0) as [->|Hz]; [apply round_to_prec_0|].
  unfold round_to_prec.
  assert (Z.log2 (Z.abs z) < prec) by (apply Z.log2_lt_pow2; lia).
  destruct (Z.leb_spec (Z.log2 (Z.abs z) + 1 - prec) 0); [reflexivity | lia].
Qed.

(** On positive arguments rounding stays within the binade:
    [2^(log2 a) <= round a <= 2^(log2 a + 1)]. *)
Lemma round_to_prec_binade prec a :
  0 < prec -> 0 < a ->
  2 ^ Z.log2 a <= round_to_prec prec a <= 2 ^ (Z.log2 a + 1).
Proof.
  intros Hp Ha. unfold round_to_prec.
  rewrite (Z.abs_eq a) by lia.
  pose proof (Z.log2_spec a Ha) as [Hlo Hhi].
  rewrite Z.add_1_r.
  set (l := Z.log2 a) in *.
  assert (Hl : 0 <= l) by apply Z.log2_nonneg.
  destruct (Z.leb_spec (Z.succ l - prec) 0) as [He|He]; [lia|].
  set (e := Z.succ l - prec) in *.
  assert (Hpow : 2 ^ Z.succ l = 2 ^ prec * 2 ^ e).
  { rewrite <- Z.pow_add_r by lia. f_equal. lia. }
  assert (Hpow' : 2 ^ l = 2 ^ (prec - 1) * 2 ^ e).
  { rewrite <- Z.pow_add_r by lia. f_equal. lia. }
  assert (He2 : 0 < 2 ^ e) by (apply Z.pow_pos_nonneg; lia).
  assert (Hq1 : 2 ^ (prec - 1) <= a / 2 ^ e).
  { apply Z.div_le_lower_bound; lia. }
  assert (Hq2 : a / 2 ^ e < 2 ^ prec).
  { apply Z.div_lt_upper_bound; lia. }
  rewrite Z.sgn_pos by lia.
  set (q := a / 2 ^ e) in *.
  assert (Hm : forall m, q <= m <= q + 1 ->
                2 ^ l <= 1 * (m * 2 ^ e) <= 2 ^ Z.succ l).
  { intros m Hm. rewrite Hpow, Hpow'. split; nia. }
  destruct (a mod 2 ^ e <? 2 ^ (e - 1)); [apply Hm; lia|].
  destruct (2 ^ (e - 1) <? a mod 2 ^ e); [apply Hm; lia|].
  destruct (Z.even q); apply Hm; lia.
Qed.

Lemma round_to_prec_pos prec a :
  0 < prec -> 0 < a -> 0 < round_to_prec prec a.
Proof.
  intros Hp Ha.
  pose proof (round_to_prec_binade prec a Hp Ha) as [H _].
  assert (0 < 2 ^ Z.log2 a) by (apply Z.pow_pos_nonneg; [lia | apply Z.log2_nonneg]).
  lia.
Qed.

Lemma round_to_prec_nonneg prec a :
  0 < prec -> 0 <= a -> 0 <= round_to_prec prec a.
Proof.
  intros Hp Ha. destruct (Z.eq_dec a 0) as [->|].
  - rewrite round_to_prec_0. lia.
  - pose proof (round_to_prec_pos prec a Hp). lia.
Qed.

(** Rounding is monotone on the non-negative integers. *)
Lemma round_to_prec_mono prec a b :
  0 < prec -> 0 <= a -> a <= b ->
  round_to_prec prec a <= round_to_prec prec b.
Proof.
  intros Hp Ha Hab.
  destruct (Z.eq_dec a 0) as [->|Ha0].
  { rewrite round_to_prec_0. apply round_to_prec_nonneg; lia. }
  assert (Hlog : Z.log2 a <= Z.log2 b) by (apply Z.log2_le_mono; lia).
  destruct (Z.eq_dec (Z.log2 a) (Z.log2 b)) as [Heq|Hne].
  - unfold round_to_prec.
    rewrite !Z.abs_eq by lia. rewrite <- Heq.
    set (e := Z.log2 a + 1 - prec).
    destruct (Z.leb_spec e 0) as [He|He]; [lia|].
    rewrite !Z.sgn_pos by lia.
    assert (He2 : 0 < 2 ^ e) by (apply Z.pow_pos_nonneg; lia).
    assert (Hh : 2 ^ e = 2 * 2 ^ (e - 1)).
    { rewrite <- Z.pow_succ_r by lia. f_equal. lia. }
    pose proof (Z.div_mod a (2 ^ e) ltac:(lia)) as Da.
    pose proof (Z.div_mod b (2 ^ e) ltac:(lia)) as Db.
    pose proof (Z.mod_pos_bound a (2 ^ e) He2) as Ra.
    pose proof (Z.mod_pos_bound b (2 ^ e) He2) as Rb.
    set (qa := a / 2 ^ e) in *. set (qb := b / 2 ^ e) in *.
    set (ra := a mod 2 ^ e) in *. set (rb := b mod 2 ^ e) in *.
    set (h := 2 ^ (e - 1)) in *.
    assert (Hq : qa <= qb) by (apply Z.div_le_mono; lia).
    assert (Hcase : qa < qb \/ (qa = qb /\ ra <= rb)) by nia.
    destruct Hcase as [Hlt | [Hqq Hr]].
    + assert (forall ma mb, ma <= qa + 1 -> qb <= mb ->
                1 * (ma * 2 ^ e) <= 1 * (mb * 2 ^ e)) as Hm by (intros; nia).
      destruct (ra <? h), (h <? ra), (Z.even qa),
               (rb <? h), (h <? rb), (Z.even qb); apply Hm; lia.
    + rewrite <- Hqq.
      destruct (Z.ltb_spec ra h), (Z.ltb_spec h ra),
               (Z.ltb_spec rb h), (Z.ltb_spec h rb), (Z.even qa); nia.
  - pose proof (round_to_prec_binade prec a Hp ltac:(lia)) as [_ H1].
    pose proof (round_to_prec_binade prec b Hp ltac:(lia)) as [H2 _].
    assert (2 ^ (Z.log2 a + 1) <= 2 ^ Z.log2 b).
    { apply Z.pow_le_mono_r; lia. }
    lia.
Qed.

Lemma wrap64_add_l a b : wrap64 (wrap64 a + b) = wrap64 (a + b).
Proof.
  unfold wrap64. f_equal.
  replace ((a + 2 ^ 63) mod 2 ^ 64 - 2 ^ 63 + b + 2 ^ 63)
    with ((a + 2 ^ 63) mod 2 ^ 64 + b) by lia.
  rewrite Z.add_mod_idemp_l by lia. f_equal. lia.
Qed.

Lemma wrap64_add_r a b : wrap64 (a + wrap64 b) = wrap64 (a + b).
Proof. rewrite (Z.add_comm a), wrap64_add_l. f_equal. lia. Qed.

Lemma wrap64_idem a : wrap64 (wrap64 a) = wrap64 a.
Proof. apply wrap64_id, wrap64_range. Qed.

(** C++ division truncates; on a 64-bit dividend the quotient by 1000
    is again a 64-bit value. *)
Lemma quot_1000_range z : in_ll z -> in_ll (z ÷ 1000).
Proof.
  unfold in_ll, min_ll, max_ll. intros [H1 H2].
  destruct (Z.le_gt_cases 0 z) as [Hz|Hz].
  - rewrite Z.quot_div_nonneg by lia.
    pose proof (Z.div_pos z 1000 Hz ltac:(lia)).
    assert (z / 1000 <= z) by (apply Z.div_le_upper_bound; lia). lia.
  - replace z with (- (- z)) by lia. rewrite Z.quot_opp_l by lia.
    rewrite Z.quot_div_nonneg by lia.
    pose proof (Z.div_pos (- z) 1000 ltac:(lia) ltac:(lia)).
    assert (- z / 1000 <= - z) by (apply Z.div_le_upper_bound; lia). lia.
Qed.

(** A value with at most [prec] significant bits is its own rounding. *)
Lemma round_to_prec_multiple prec m k :
  0 < prec -> 0 <= m < 2 ^ prec -> 0 <= k ->
  round_to_prec prec (m * 2 ^ k) = m * 2 ^ k.
Proof.
  intros Hp Hm Hk.
  destruct (Z.eq_dec m 0) as [->|Hm0].
  { rewrite Z.mul_0_l. apply round_to_prec_0. }
  assert (Hk2 : 0 < 2 ^ k) by (apply Z.pow_pos_nonneg; lia).
  unfold round_to_prec. rewrite Z.abs_eq by nia.
  rewrite Z.log2_mul_pow2 by lia.
  assert (Hlm : Z.log2 m < prec) by (apply Z.log2_lt_pow2; lia).
  set (e := k + Z.log2 m + 1 - prec).
  destruct (Z.leb_spec e 0) as [He|He]; [reflexivity|].
  assert (Hsplit : m * 2 ^ k = (m * 2 ^ (k - e)) * 2 ^ e).
  { rewrite <- Z.mul_assoc, <- Z.pow_add_r by lia. do 2 f_equal. lia. }
  assert (He2 : 0 < 2 ^ e) by (apply Z.pow_pos_nonneg; lia).
  assert (Hh : 0 < 2 ^ (e - 1)) by (apply Z.pow_pos_nonneg; lia).
  assert (Hmod : (m * 2 ^ k) mod 2 ^ e = 0).
  { rewrite Hsplit. apply Z.mod_mul. lia. }
  assert (Hdiv : (m * 2 ^ k) / 2 ^ e * 2 ^ e = m * 2 ^ k).
  { rewrite Hsplit at 1. rewrite Z.div_mul by lia. lia. }
  rewrite Hmod.
  destruct (Z.ltb_spec 0 (2 ^ (e - 1))); [|lia].
  rewrite Z.sgn_pos by nia. lia.
Qed.

(** Rounding moves a positive value by at most half a unit in the last
    place. *)
Lemma round_to_prec_error prec k a :
  0 < prec -> 0 <= k -> 0 <= a < 2 ^ (prec + k) ->
  2 * Z.abs (round_to_prec prec a - a) <= 2 ^ k.
Proof.
  intros Hp Hk Ha.
  assert (Hk2 : 0 < 2 ^ k) by (apply Z.pow_pos_nonneg; lia).
  destruct (Z.eq_dec a 0) as [->|Ha0].
  { rewrite round_to_prec_0. simpl. lia. }
  assert (Hl : Z.log2 a < prec + k) by (apply Z.log2_lt_pow2; lia).
  unfold round_to_prec. rewrite (Z.abs_eq a) by lia.
  set (e := Z.log2 a + 1 - prec).
  destruct (Z.leb_spec e 0) as [He|He].
  { replace (a - a) with 0 by lia. simpl. lia. }
  assert (He2 : 0 < 2 ^ e) by (apply Z.pow_pos_nonneg; lia).
  assert (Hh : 2 ^ e = 2 * 2 ^ (e - 1)).
  { rewrite <- Z.pow_succ_r by lia. f_equal. lia. }
  assert (Hek : 2 ^ e <= 2 ^ k) by (apply Z.pow_le_mono_r; lia).
  pose proof (Z.div_mod a (2 ^ e) ltac:(lia)) as Da.
  pose proof (Z.mod_pos_bound a (2 ^ e) He2) as Ra.
  rewrite Z.sgn_pos by lia.
  set (q := a / 2 ^ e) in *. set (r := a mod 2 ^ e) in *.
  set (h := 2 ^ (e - 1)) in *.
  destruct (Z.ltb_spec r h), (Z.ltb_spec h r), (Z.even q); nia.
Qed.

Lemma quot_1000_gt k x : 0 <= k -> k < x ÷ 1000 -> 1000 * (k + 1) <= x.
Proof.
  intros Hk H.
  destruct (Z.le_gt_cases 0 x) as [Hx|Hx].
  - rewrite Z.quot_div_nonneg in H by lia.
    pose proof (Z.mul_div_le x 1000 ltac:(lia)). lia.
  - exfalso. replace x with (- (- x)) in H by lia.
    rewrite Z.quot_opp_l in H by lia.
    rewrite Z.quot_div_nonneg in H by lia.
    pose proof (Z.div_pos (- x) 1000 ltac:(lia) ltac:(lia)). lia.
Qed.

Lemma quot_1000_small x : 0 <= x < 1000 -> x ÷ 1000 = 0.
Proof. intros H. apply Z.quot_small. lia. Qed.

(** A rounded value rounds to itself. *)
Lemma round_to_prec_idem prec a :
  0 < prec -> 0 <= a ->
  round_to_prec prec (round_to_prec prec a) = round_to_prec prec a.
Proof.
  intros Hp Ha.
  destruct (Z.eq_dec a 0) as [->|Ha0].
  { now rewrite !round_to_prec_0. }
  assert (Hshape : exists m k, 0 <= m < 2 ^ prec /\ 0 <= k /\
                               round_to_prec prec a = m * 2 ^ k).
  { unfold round_to_prec. rewrite (Z.abs_eq a) by lia.
    pose proof (Z.log2_spec a ltac:(lia)) as [Hlo Hhi].
    set (l := Z.log2 a) in *.
    assert (Hl : 0 <= l) by apply Z.log2_nonneg.
    destruct (Z.leb_spec (l + 1 - prec) 0) as [He|He].
    - exists a, 0. rewrite Z.mul_1_r. repeat split; try lia.
      apply Z.lt_le_trans with (2 ^ Z.succ l); [lia|].
      apply Z.pow_le_mono_r; lia.
    - set (e := l + 1 - prec) in *.
      assert (Hpow : 2 ^ Z.succ l = 2 ^ prec * 2 ^ e).
      { rewrite <- Z.pow_add_r by lia. f_equal. lia. }
      assert (He2 : 0 < 2 ^ e) by (apply Z.pow_pos_nonneg; lia).
      assert (Hq1 : 0 <= a / 2 ^ e) by (apply Z.div_pos; lia).
      assert (Hq2 : a / 2 ^ e < 2 ^ prec).
      { apply Z.div_lt_upper_bound; lia. }
      rewrite Z.sgn_pos by lia.
      set (q := a / 2 ^ e) in *.
      assert (Hm : forall m, q <= m <= q + 1 ->
                exists m' k, 0 <= m' < 2 ^ prec /\ 0 <= k /\
                             1 * (m * 2 ^ e) = m' * 2 ^ k).
      { intros m Hm. destruct (Z.eq_dec m (2 ^ prec)) as [->|Hne].
        - exists 1, (prec + e). repeat split; try lia.
          + apply Z.pow_gt_1; lia.
          + rewrite Z.pow_add_r by lia. lia.
        - exists m, e. repeat split; lia. }
      destruct (a mod 2 ^ e <? 2 ^ (e - 1)); [apply Hm; lia|].
      destruct (2 ^ (e - 1) <? a mod 2 ^ e); [apply Hm; lia|].
      destruct (Z.even q); apply Hm; lia. }
  destruct Hshape as (m & k & Hm & Hk & ->).
  apply round_to_prec_multiple; assumption.
Qed.

(* ================================================================== *)
(** * The Unix build: clock readings *)

Section UnixFacts.
Import Unix.

Lemma to_double_seconds s :
  0 <= s < 2 ^ 32 -> to_double (s * 10 ^ 9) = s * 10 ^ 9.
Proof.
  intros Hs. unfold to_double.
  replace (s * 10 ^ 9) with ((s * 5 ^ 9) * 2 ^ 9) by lia.
  apply round_to_prec_multiple; lia.
Qed.

Lemma ns_range t : clock_time t -> 0 <= ns t < 2 ^ 32 * 10 ^ 9.
Proof. unfold clock_time, ns. intros [H1 H2]. nia. Qed.

Lemma to_double_ns_range t :
  clock_time t -> 0 <= to_double (ns t) <= 2 ^ 32 * 10 ^ 9.
Proof.
  intros H. pose proof (ns_range t H) as Hr. split.
  - apply round_to_prec_nonneg; lia.
  - replace (2 ^ 32 * 10 ^ 9) with (to_double (2 ^ 32 * 10 ^ 9)).
    + apply round_to_prec_mono; lia.
    + replace (2 ^ 32 * 10 ^ 9) with (5 ^ 9 * 2 ^ 41) by lia.
      apply round_to_prec_multiple; lia.
Qed.

(** On a clock reading the conversion is one rounding of the exact
    count of nanoseconds. *)
Lemma NanoSec_clock t : clock_time t -> NanoSec t = to_double (ns t).
Proof.
  intros H. unfold NanoSec.
  rewrite to_double_seconds by apply H.
  fold (ns t). apply to_ll_id.
  pose proof (to_double_ns_range t H). unfold in_ll, min_ll, max_ll. lia.
Qed.

Lemma NanoSec_range t : clock_time t -> 0 <= NanoSec t <= 2 ^ 32 * 10 ^ 9.
Proof. intros H. rewrite NanoSec_clock by assumption. now apply to_double_ns_range. Qed.

(** Below [2^53] nanoseconds (some 104 days) the conversion is exact. *)
Lemma NanoSec_exact t : clock_time t -> ns t < 2 ^ 53 -> NanoSec t = ns t.
Proof.
  intros H Hs. rewrite NanoSec_clock by assumption.
  apply round_to_prec_small; [|lia].
  pose proof (ns_range t H). rewrite Z.abs_eq; lia.
Qed.

Lemma NanoSec_mono a b :
  clock_time a -> clock_time b -> ns a <= ns b -> NanoSec a <= NanoSec b.
Proof.
  intros Ha Hb Hab. rewrite !NanoSec_clock by assumption.
  apply round_to_prec_mono; [lia | | assumption].
  apply (ns_range a Ha).
Qed.

Lemma NanoSec_error t : clock_time t -> Z.abs (NanoSec t - ns t) <= 256.
Proof.
  intros H. rewrite NanoSec_clock by assumption.
  pose proof (ns_range t H).
  pose proof (round_to_prec_error 53 9 (ns t) ltac:(lia) ltac:(lia) ltac:(lia)).
  unfold to_double. lia.
Qed.

Lemma NanoSec_unset t : unset t -> NanoSec t = 0.
Proof. destruct t as [s n]. intros [Hs Hn]; simpl in *; subst. reflexivity. Qed.

Lemma diff_no_wrap a b :
  clock_time a -> clock_time b ->
  wrap64 (NanoSec b - NanoSec a) = NanoSec b - NanoSec a.
Proof.
  intros Ha Hb. apply wrap64_id.
  pose proof (NanoSec_range a Ha). pose proof (NanoSec_range b Hb).
  unfold in_ll, min_ll, max_ll. lia.
Qed.

Lemma interval_ns_exact last end_ :
  clock_time last -> clock_time end_ ->
  interval_ns last end_ = ns end_ - ns last.
Proof.
  unfold clock_time, interval_ns, ns. intros [H1 H2] [H3 H4].
  rewrite (wrap64_id (tv_sec end_ - tv_sec last))
    by (unfold in_ll, min_ll, max_ll; lia).
  rewrite (wrap64_id (_ * 1000000000))
    by (unfold in_ll, min_ll, max_ll; nia).
  rewrite (wrap64_id (tv_nsec end_ - tv_nsec last))
    by (unfold in_ll, min_ll, max_ll; lia).
  rewrite wrap64_id by (unfold in_ll, min_ll, max_ll; nia).
  lia.
Qed.

Lemma elapsed_range a b : in_ll (elapsed a b).
Proof. unfold elapsed. apply quot_1000_range, wrap64_range. Qed.

(** With the clock running forward the microseconds are the floor of the
    nanoseconds over 1000. *)
Lemma elapsed_floor a b :
  clock_time a -> clock_time b -> ns a <= ns b ->
  elapsed a b = (NanoSec b - NanoSec a) / 1000 /\ 0 <= elapsed a b.
Proof.
  intros Ha Hb Hab. unfold elapsed.
  rewrite diff_no_wrap by assumption.
  pose proof (NanoSec_mono a b Ha Hb Hab).
  rewrite Z.quot_div_nonneg by lia. split; [reflexivity|].
  apply Z.div_pos; lia.
Qed.

End UnixFacts.

(** From here on the machine arithmetic is used through its lemmas. *)
Opaque wrap64 wrap32 to_ll round_to_prec.

(* ================================================================== *)
(** * The Unix build: one destruction *)

Section UnixSteps.
Import Unix.
Variable tid : Z.

Lemma unset_test t :
  (tv_sec t =? 0) && (tv_nsec t =? 0) = true <-> unset t.
Proof.
  unfold unset. rewrite andb_true_iff, !Z.eqb_eq. tauto.
Qed.

Lemma unset_dec t : {unset t} + {~ unset t}.
Proof.
  unfold unset.
  destruct (Z.eq_dec (tv_sec t) 0), (Z.eq_dec (tv_nsec t) 0); tauto.
Qed.

Lemma initialize_value st :
  s_reportInterval (fst (initialize st)) =
  if s_reportInterval st =? 0 then 1000000 else s_reportInterval st.
Proof. unfold initialize. destruct (s_reportInterval st =? 0); reflexivity. Qed.

Lemma initialize_info st : threadInfo (fst (initialize st)) = threadInfo st.
Proof. unfold initialize. destruct (s_reportInterval st =? 0); reflexivity. Qed.

Lemma initialize_events st :
  snd (initialize st) =
  if s_reportInterval st =? 0 then [IntervalComputed 1000000] else [].
Proof. unfold initialize. destruct (s_reportInterval st =? 0); reflexivity. Qed.

Lemma initialize_set st :
  s_reportInterval st <> 0 -> initialize st = (st, []).
Proof.
  intros H. unfold initialize.
  destruct (Z.eqb_spec (s_reportInterval st) 0); [contradiction | reflexivity].
Qed.

Lemma Flush_first this end_ st :
  unset (lastReportTime (threadInfo st)) ->
  Flush tid this end_ st =
  (mk_State (s_reportInterval (fst (initialize st)))
     (mk_ThreadInfo (m_start this) (accumulator (threadInfo st))
        (hitCount (threadInfo st)) (name (threadInfo st))),
   FlushCalled :: snd (initialize st)).
Proof.
  intros H. unfold Flush.
  pose proof (initialize_info st) as Hi.
  destruct (initialize st) as [st1 ev]. simpl in *. rewrite Hi.
  apply unset_test in H. rewrite H. reflexivity.
Qed.

Lemma Flush_report this end_ st :
  ~ unset (lastReportTime (threadInfo st)) ->
  Flush tid this end_ st =
  (mk_State (s_reportInterval (fst (initialize st)))
     (mk_ThreadInfo end_ 0 0 (name (threadInfo st))),
   FlushCalled :: snd (initialize st) ++ [Printed (report tid (threadInfo st) end_)]).
Proof.
  intros H. unfold Flush.
  pose proof (initialize_info st) as Hi.
  destruct (initialize st) as [st1 ev]. simpl in *. rewrite Hi.
  destruct ((tv_sec (lastReportTime (threadInfo st)) =? 0) &&
            (tv_nsec (lastReportTime (threadInfo st)) =? 0)) eqn:E.
  - apply unset_test in E. contradiction.
  - reflexivity.
Qed.

Lemma destructor_quiet start end_ st :
  elapsed (lastReportTime (threadInfo st)) end_ <= s_reportInterval st ->
  destructor tid (constructor start) end_ st =
  (mk_State (s_reportInterval st) (counted start end_ (threadInfo st)), []).
Proof.
  intros H. unfold destructor, elapsed in *. simpl.
  destruct (Z.gtb_spec
    (wrap64 (NanoSec end_ - NanoSec (lastReportTime (threadInfo st))) ÷ 1000)
    (s_reportInterval st)); [lia | reflexivity].
Qed.

Lemma destructor_flushes start end_ st :
  s_reportInterval st < elapsed (lastReportTime (threadInfo st)) end_ ->
  destructor tid (constructor start) end_ st =
  Flush tid (constructor start) end_
    (mk_State (s_reportInterval st) (counted start end_ (threadInfo st))).
Proof.
  intros H. unfold destructor, elapsed in *. simpl.
  destruct (Z.gtb_spec
    (wrap64 (NanoSec end_ - NanoSec (lastReportTime (threadInfo st))) ÷ 1000)
    (s_reportInterval st)); [reflexivity | lia].
Qed.

Lemma initialize_frame st info :
  initialize (mk_State (s_reportInterval st) info)
  = (mk_State (s_reportInterval (fst (initialize st))) info, snd (initialize st)).
Proof.
  unfold initialize. simpl. destruct (s_reportInterval st =? 0); reflexivity.
Qed.

Lemma destructor_outcome start end_ st :
  outcome tid start end_ st (destructor tid (constructor start) end_ st).
Proof.
  destruct (Z.le_gt_cases (elapsed (lastReportTime (threadInfo st)) end_)
                          (s_reportInterval st)) as [H|H].
  - rewrite destructor_quiet by assumption. now constructor.
  - rewrite destructor_flushes by lia.
    destruct (unset_dec (lastReportTime (threadInfo st))) as [U|U].
    + rewrite Flush_first by exact U.
      rewrite initialize_frame. simpl. now apply outcome_first; [lia|].
    + rewrite Flush_report by exact U.
      rewrite initialize_frame. simpl. now apply outcome_report; [lia|].
Qed.

End UnixSteps.

(** A destruction is from here on one of its three outcomes. *)
Opaque Unix.destructor Unix.Flush.

(* ================================================================== *)
(** * The Unix build: sequences of destructions *)

Section UnixRuns.
Import Unix.
Variable tid : Z.

Lemma printed_app e1 e2 : printed (e1 ++ e2) = printed e1 ++ printed e2.
Proof. unfold printed. apply flat_map_app. Qed.

Lemma flush_calls_app e1 e2 :
  flush_calls (e1 ++ e2) = (flush_calls e1 + flush_calls e2)%nat.
Proof. unfold flush_calls. now rewrite filter_app, length_app. Qed.

Lemma computations_app e1 e2 :
  computations (e1 ++ e2) = computations e1 ++ computations e2.
Proof. unfold computations. apply flat_map_app. Qed.

Lemma printed_initialize st : printed (snd (initialize st)) = [].
Proof. rewrite initialize_events. destruct (s_reportInterval st =? 0); reflexivity. Qed.

Lemma flush_calls_initialize st : flush_calls (snd (initialize st)) = O.
Proof. rewrite initialize_events. destruct (s_reportInterval st =? 0); reflexivity. Qed.

Lemma run_cons op rest st :
  run tid (op :: rest) st =
  (fst (run tid rest (fst (step tid op st))),
   snd (step tid op st) ++ snd (run tid rest (fst (step tid op st)))).
Proof.
  simpl. destruct (step tid op st) as [st1 e1]. simpl.
  destruct (run tid rest st1) as [st2 e2]. reflexivity.
Qed.

Lemma run_app ops1 ops2 st :
  run tid (ops1 ++ ops2) st =
  (fst (run tid ops2 (fst (run tid ops1 st))),
   snd (run tid ops1 st) ++ snd (run tid ops2 (fst (run tid ops1 st)))).
Proof.
  revert st. induction ops1 as [|op ops1 IH]; intros st.
  - simpl. now destruct (run tid ops2 st).
  - rewrite <- app_comm_cons, !run_cons, IH. simpl. now rewrite app_assoc.
Qed.

Lemma scopes_app ops1 ops2 : scopes (ops1 ++ ops2) = scopes ops1 ++ scopes ops2.
Proof. unfold scopes. apply flat_map_app. Qed.

Lemma total_elapsed_app g1 g2 :
  total_elapsed (g1 ++ g2) = total_elapsed g1 + total_elapsed g2.
Proof.
  induction g1 as [|g g1 IH]; simpl; [reflexivity|].
  unfold total_elapsed in *. simpl. rewrite IH. lia.
Qed.

(** A destruction that prints nothing has counted its guard. *)
Lemma destructor_counts start end_ st :
  printed (snd (destructor tid (constructor start) end_ st)) = [] ->
  let info' := threadInfo (fst (destructor tid (constructor start) end_ st)) in
  hitCount info' = wrap64 (hitCount (threadInfo st) + 1) /\
  accumulator info' = wrap64 (accumulator (threadInfo st) + elapsed start end_) /\
  name info' = name (threadInfo st).
Proof.
  destruct (destructor_outcome tid start end_ st) as [H|H U|H U]; simpl.
  - auto.
  - auto.
  - rewrite printed_app. simpl. intros E.
    destruct (printed (snd (initialize st))); discriminate.
Qed.

(** As long as nothing is printed, the record counts every guard. *)
Lemma run_counts ops st :
  printed (snd (run tid ops st)) = [] ->
  in_ll (hitCount (threadInfo st)) ->
  in_ll (accumulator (threadInfo st)) ->
  let info' := threadInfo (fst (run tid ops st)) in
  hitCount info' =
    wrap64 (hitCount (threadInfo st) + Z.of_nat (List.length (scopes ops))) /\
  accumulator info' =
    wrap64 (accumulator (threadInfo st) + total_elapsed (scopes ops)) /\
  name info' = name (threadInfo st).
Proof.
  revert st. induction ops as [|op ops IH]; intros st Hp Hh Ha.
  - simpl. rewrite !Z.add_0_r, !wrap64_id by assumption. auto.
  - rewrite run_cons in *. simpl fst in *. simpl snd in Hp.
    rewrite printed_app in Hp. apply app_eq_nil in Hp as [Hp1 Hp2].
    destruct op as [start end_|].
    + simpl step in *.
      destruct (destructor_counts start end_ st Hp1) as (Eh & Ea & En).
      destruct (IH _ Hp2) as (Ih & Ia & In_).
      { rewrite Eh. apply wrap64_range. }
      { rewrite Ea. apply wrap64_range. }
      cbv zeta. rewrite Ih, Ia, In_, Eh, Ea, En.
      rewrite !wrap64_add_l. simpl scopes. simpl List.length.
      unfold total_elapsed at 2. simpl fold_right. fold (total_elapsed (scopes ops)).
      repeat split; f_equal; lia.
    + simpl step in *. simpl fst in *.
      destruct (IH _ Hp2) as (Ih & Ia & In_);
        rewrite ?initialize_info; try assumption.
      cbv zeta. rewrite Ih, Ia, In_, !initialize_info. simpl scopes. auto.
Qed.

Lemma printed_needs_flush_step op st :
  flush_calls (snd (step tid op st)) = O -> printed (snd (step tid op st)) = [].
Proof.
  destruct op as [start end_|]; simpl; [|reflexivity].
  destruct (destructor_outcome tid start end_ st) as [H|H U|H U]; simpl;
    [reflexivity | intros; apply printed_initialize | discriminate].
Qed.

Lemma printed_needs_flush ops st :
  flush_calls (snd (run tid ops st)) = O -> printed (snd (run tid ops st)) = [].
Proof.
  revert st. induction ops as [|op ops IH]; intros st; [reflexivity|].
  rewrite run_cons. simpl snd. rewrite flush_calls_app, printed_app.
  intros H. apply Nat.eq_add_0 in H as [H1 H2].
  rewrite printed_needs_flush_step, IH by assumption. reflexivity.
Qed.

(** ** The states that runs produce *)

Lemma consistent_initial name : consistent (initial name).
Proof. unfold consistent, initial, unset, clock_time. simpl. lia. Qed.

Lemma consistent_step op st :
  clock_op op -> consistent st -> consistent (fst (step tid op st)).
Proof.
  intros Hop [Hs Hc]. destruct op as [start end_|]; simpl in *.
  - destruct Hop as [Hstart Hend].
    destruct (destructor_outcome tid start end_ st) as [H|H U|H U];
      unfold consistent; simpl; rewrite ?initialize_value.
    + auto.
    + split; [right|assumption].
      destruct Hs as [[-> _]| ->]; reflexivity.
    + split; [right|assumption].
      destruct Hs as [[-> _]| ->]; reflexivity.
  - unfold consistent. rewrite initialize_value, initialize_info.
    split; [right|assumption].
    destruct Hs as [[-> _]| ->]; reflexivity.
Qed.

Lemma consistent_run ops st :
  Forall clock_op ops -> consistent st -> consistent (fst (run tid ops st)).
Proof.
  revert st. induction ops as [|op ops IH]; intros st Hops Hc; [assumption|].
  rewrite run_cons. simpl fst. inversion Hops; subst.
  apply IH; [assumption|]. now apply consistent_step.
Qed.

(** ** [s_reportInterval] *)

Lemma step_stable op st :
  s_reportInterval st <> 0 ->
  s_reportInterval (fst (step tid op st)) = s_reportInterval st /\
  computations (snd (step tid op st)) = [].
Proof.
  intros Hs. destruct op as [start end_|]; simpl.
  - destruct (destructor_outcome tid start end_ st) as [H|H U|H U]; simpl;
      rewrite ?initialize_set by assumption; simpl; auto.
  - rewrite initialize_set by assumption. auto.
Qed.

Lemma run_stable ops st :
  s_reportInterval st <> 0 ->
  s_reportInterval (fst (run tid ops st)) = s_reportInterval st /\
  computations (snd (run tid ops st)) = [].
Proof.
  revert st. induction ops as [|op ops IH]; intros st Hs; [auto|].
  rewrite run_cons. simpl fst. simpl snd.
  destruct (step_stable op st Hs) as [E1 E2].
  destruct (IH (fst (step tid op st))) as [E3 E4]; [congruence|].
  rewrite computations_app, E2, E4, E3, E1. auto.
Qed.

Lemma step_computations op st :
  computations (snd (step tid op st)) = [] \/
  (computations (snd (step tid op st)) = [1000000] /\
   s_reportInterval st = 0 /\
   s_reportInterval (fst (step tid op st)) = 1000000).
Proof.
  destruct (Z.eq_dec (s_reportInterval st) 0) as [Hs|Hs].
  - destruct op as [start end_|]; simpl; [|auto].
    destruct (destructor_outcome tid start end_ st) as [H|H U|H U]; simpl;
      [auto | right | right];
      rewrite ?computations_app, initialize_events, initialize_value, Hs;
      simpl; auto.
  - left. now apply step_stable.
Qed.

Lemma run_computations ops st :
  computations (snd (run tid ops st)) = [] \/
  (computations (snd (run tid ops st)) = [1000000] /\ s_reportInterval st = 0).
Proof.
  revert st. induction ops as [|op ops IH]; intros st; [now left|].
  rewrite run_cons. simpl snd. rewrite computations_app.
  destruct (step_computations op st) as [E|(E & Hs & Hs')]; rewrite E.
  - destruct (IH (fst (step tid op st))) as [E'|[E' H0]]; rewrite E'.
    + now left.
    + right. split; [reflexivity|].
      destruct (Z.eq_dec (s_reportInterval st) 0) as [|Hn]; [assumption|].
      destruct (step_stable op st Hn) as [E1 _]. congruence.
  - right. split; [|assumption].
    destruct (run_stable ops (fst (step tid op st))) as [_ E']; [lia|].
    now rewrite E'.
Qed.

(** ** [lastReportTime] *)

Lemma elapsed_gt a b k :
  clock_time a -> clock_time b -> 0 <= k -> k < elapsed a b ->
  1000 * (k + 1) <= NanoSec b - NanoSec a.
Proof.
  intros Ha Hb Hk H. unfold elapsed in H.
  rewrite diff_no_wrap in H by assumption. now apply quot_1000_gt.
Qed.

Lemma elapsed_pos_order a b :
  clock_time a -> clock_time b -> 0 < elapsed a b -> ns a < ns b.
Proof.
  intros Ha Hb H.
  pose proof (elapsed_gt a b 0 Ha Hb ltac:(lia) H).
  destruct (Z.lt_ge_cases (ns a) (ns b)) as [|Hge]; [assumption|].
  pose proof (NanoSec_mono b a Hb Ha Hge). lia.
Qed.

Lemma ns_unset t : unset t -> ns t = 0.
Proof. unfold unset, ns. intros [-> ->]. reflexivity. Qed.

Lemma step_forward op st :
  clock_op op -> 0 <= s_reportInterval st ->
  clock_time (lastReportTime (threadInfo st)) ->
  ns (lastReportTime (threadInfo st))
    <= ns (lastReportTime (threadInfo (fst (step tid op st)))) /\
  0 <= s_reportInterval (fst (step tid op st)) /\
  clock_time (lastReportTime (threadInfo (fst (step tid op st)))).
Proof.
  intros Hop Hs Hc. destruct op as [start end_|]; simpl in *.
  - destruct Hop as [Hstart Hend].
    destruct (destructor_outcome tid start end_ st) as [H|H U|H U]; simpl;
      rewrite ?initialize_value.
    + repeat split; try lia; apply Hc.
    + rewrite (ns_unset _ U). pose proof (ns_range start Hstart).
      destruct (s_reportInterval st =? 0); repeat split; try lia; apply Hstart.
    + pose proof (elapsed_pos_order _ end_ Hc Hend ltac:(lia)).
      destruct (s_reportInterval st =? 0); repeat split; try lia; apply Hend.
  - rewrite initialize_value, initialize_info.
    destruct (s_reportInterval st =? 0); repeat split; try lia; apply Hc.
Qed.

Lemma run_forward ops st :
  Forall clock_op ops -> 0 <= s_reportInterval st ->
  clock_time (lastReportTime (threadInfo st)) ->
  ns (lastReportTime (threadInfo st))
    <= ns (lastReportTime (threadInfo (fst (run tid ops st)))) /\
  0 <= s_reportInterval (fst (run tid ops st)) /\
  clock_time (lastReportTime (threadInfo (fst (run tid ops st)))).
Proof.
  revert st. induction ops as [|op ops IH]; intros st Hops Hs Hc.
  - simpl. repeat split; try lia; apply Hc.
  - rewrite run_cons. simpl fst. inversion Hops; subst.
    destruct (step_forward op st) as (F1 & F2 & F3); try assumption.
    destruct (IH (fst (step tid op st))) as (G1 & G2 & G3); try assumption.
    repeat split; try lia; apply G3.
Qed.

End UnixRuns.

(* ================================================================== *)
(** * The Unix build: the printed line *)

Section UnixReport.
Import Unix.
Variable tid : Z.

Lemma report_layout info end_ :
  let measured := double_of_Z (accumulator info) in
  let interval :=
    double_div (double_of_Z (interval_ns (lastReportTime info) end_))
               (double_of_Z 1000) in
  report tid info end_ =
  ("TID " ++ fmt_dec (wrap64 tid) ++
   " time spent in " ++ dquote ++ name info ++ dquote ++ ": " ++
   fmt_fixed 0 measured ++ "/" ++ fmt_fixed 0 interval ++ " microsec " ++
   fmt_fixed 1 (double_div (double_mul (double_of_Z 100) measured) interval) ++
   "% " ++ fmt_dec (wrap64 (hitCount info)) ++ "x" ++ newline)%string.
Proof.
  unfold report, printf, format, dquote, newline.
  cbn -[fmt_dec fmt_fixed wrap64 double_of_Z double_div double_mul interval_ns].
  reflexivity.
Qed.

End UnixReport.

(* ================================================================== *)
(** * The Windows build: one destruction *)

Section WindowsSteps.
Import Windows.
Variable frequency : Z.
Variable tid : Z.

Lemma win_interval_value :
  counter_rate frequency ->
  interval_value frequency = to_float frequency /\ 0 < interval_value frequency.
Proof.
  unfold counter_rate, interval_value, APIProfiler_ReportIntervalSecs.
  intros [H1 H2]. rewrite Z.mul_1_r. unfold to_float.
  rewrite round_to_prec_idem by lia.
  pose proof (round_to_prec_binade 24 frequency ltac:(lia) H1) as [B1 B2].
  assert (Z.log2 frequency < 62) by (apply Z.log2_lt_pow2; lia).
  assert (2 ^ (Z.log2 frequency + 1) <= 2 ^ 62)
    by (apply Z.pow_le_mono_r; lia).
  pose proof (round_to_prec_pos 24 frequency ltac:(lia) H1).
  rewrite to_ll_id by (unfold in_ll, min_ll, max_ll; lia).
  auto.
Qed.

Lemma win_elapsed_clock a b :
  clock_time a -> clock_time b -> elapsed a b = b - a.
Proof.
  unfold clock_time, elapsed, max_ll. intros Ha Hb.
  apply wrap64_id. unfold in_ll, min_ll, max_ll. lia.
Qed.

Lemma win_unset_dec t : {unset t} + {~ unset t}.
Proof. apply Z.eq_dec. Qed.

Lemma win_initialize_value st :
  s_reportInterval (fst (initialize frequency st)) =
  if s_reportInterval st =? 0 then interval_value frequency
  else s_reportInterval st.
Proof. unfold initialize. destruct (s_reportInterval st =? 0); reflexivity. Qed.

Lemma win_initialize_info st :
  threadInfo (fst (initialize frequency st)) = threadInfo st.
Proof. unfold initialize. destruct (s_reportInterval st =? 0); reflexivity. Qed.

Lemma win_initialize_events st :
  snd (initialize frequency st) =
  if s_reportInterval st =? 0
  then [IntervalComputed (interval_value frequency)] else [].
Proof. unfold initialize. destruct (s_reportInterval st =? 0); reflexivity. Qed.

Lemma win_initialize_set st :
  s_reportInterval st <> 0 -> initialize frequency st = (st, []).
Proof.
  intros H. unfold initialize.
  destruct (Z.eqb_spec (s_reportInterval st) 0); [contradiction | reflexivity].
Qed.

Lemma win_initialize_frame st info :
  initialize frequency (mk_State (s_ooFrequency st) (s_reportInterval st) info)
  = (mk_State (s_ooFrequency (fst (initialize frequency st)))
       (s_reportInterval (fst (initialize frequency st))) info,
     snd (initialize frequency st)).
Proof.
  unfold initialize. simpl. destruct (s_reportInterval st =? 0); reflexivity.
Qed.

Lemma win_Flush_first this end_ st :
  unset (lastReportTime (threadInfo st)) ->
  Flush frequency tid this end_ st =
  (mk_State (s_ooFrequency (fst (initialize frequency st)))
     (s_reportInterval (fst (initialize frequency st)))
     (mk_ThreadInfo (m_start this) (accumulator (threadInfo st))
        (hitCount (threadInfo st)) (name (threadInfo st))),
   FlushCalled :: snd (initialize frequency st)).
Proof.
  intros H. unfold Flush.
  pose proof (win_initialize_info st) as Hi.
  destruct (initialize frequency st) as [st1 ev]. simpl in *. rewrite Hi.
  unfold unset in H. rewrite H. reflexivity.
Qed.

Lemma win_Flush_report this end_ st :
  ~ unset (lastReportTime (threadInfo st)) ->
  Flush frequency tid this end_ st =
  (mk_State (s_ooFrequency (fst (initialize frequency st)))
     (s_reportInterval (fst (initialize frequency st)))
     (mk_ThreadInfo end_ 0 0 (name (threadInfo st))),
   FlushCalled :: snd (initialize frequency st) ++
   [Printed (report tid (s_ooFrequency (fst (initialize frequency st)))
               (threadInfo st) end_)]).
Proof.
  intros H. unfold Flush.
  pose proof (win_initialize_info st) as Hi.
  destruct (initialize frequency st) as [st1 ev]. simpl in *. rewrite Hi.
  destruct (Z.eqb_spec (lastReportTime (threadInfo st)) 0) as [E|E].
  - contradiction.
  - reflexivity.
Qed.

Lemma win_destructor_quiet start end_ st :
  elapsed (lastReportTime (threadInfo st)) end_ <= s_reportInterval st ->
  destructor frequency tid (constructor start) end_ st =
  (mk_State (s_ooFrequency st) (s_reportInterval st)
     (counted start end_ (threadInfo st)), []).
Proof.
  intros H. unfold destructor, elapsed in *. simpl.
  destruct (Z.gtb_spec (wrap64 (end_ - lastReportTime (threadInfo st)))
                       (s_reportInterval st)); [lia | reflexivity].
Qed.

Lemma win_destructor_flushes start end_ st :
  s_reportInterval st < elapsed (lastReportTime (threadInfo st)) end_ ->
  destructor frequency tid (constructor start) end_ st =
  Flush frequency tid (constructor start) end_
    (mk_State (s_ooFrequency st) (s_reportInterval st)
       (counted start end_ (threadInfo st))).
Proof.
  intros H. unfold destructor, elapsed in *. simpl.
  destruct (Z.gtb_spec (wrap64 (end_ - lastReportTime (threadInfo st)))
                       (s_reportInterval st)); [reflexivity | lia].
Qed.

Lemma win_destructor_outcome start end_ st :
  outcome frequency tid start end_ st
    (destructor frequency tid (constructor start) end_ st).
Proof.
  destruct (Z.le_gt_cases (elapsed (lastReportTime (threadInfo st)) end_)
                          (s_reportInterval st)) as [H|H].
  - rewrite win_destructor_quiet by assumption. now constructor.
  - rewrite win_destructor_flushes by lia.
    destruct (win_unset_dec (lastReportTime (threadInfo st))) as [U|U].
    + rewrite win_Flush_first by exact U.
      rewrite win_initialize_frame. simpl. now apply outcome_first; [lia|].
    + rewrite win_Flush_report by exact U.
      rewrite win_initialize_frame. simpl. now apply outcome_report; [lia|].
Qed.

Lemma win_elapsed_range a b : in_ll (elapsed a b).
Proof. apply wrap64_range. Qed.

End WindowsSteps.

Opaque Windows.destructor Windows.Flush.

(* ================================================================== *)
(** * The Windows build: sequences of destructions *)

Section WindowsRuns.
Import Windows.
Variable frequency : Z.
Variable tid : Z.

Lemma win_printed_app e1 e2 : printed (e1 ++ e2) = printed e1 ++ printed e2.
Proof. unfold printed. apply flat_map_app. Qed.

Lemma win_flush_calls_app e1 e2 :
  flush_calls (e1 ++ e2) = (flush_calls e1 + flush_calls e2)%nat.
Proof. unfold flush_calls. now rewrite filter_app, length_app. Qed.

Lemma win_computations_app e1 e2 :
  computations (e1 ++ e2) = computations e1 ++ computations e2.
Proof. unfold computations. apply flat_map_app. Qed.

Lemma win_printed_initialize st : printed (snd (initialize frequency st)) = [].
Proof.
  rewrite win_initialize_events. destruct (s_reportInterval st =? 0); reflexivity.
Qed.

Lemma win_run_cons op rest st :
  run frequency tid (op :: rest) st =
  (fst (run frequency tid rest (fst (step frequency tid op st))),
   snd (step frequency tid op st) ++
   snd (run frequency tid rest (fst (step frequency tid op st)))).
Proof.
  simpl. destruct (step frequency tid op st) as [st1 e1]. simpl.
  destruct (run frequency tid rest st1) as [st2 e2]. reflexivity.
Qed.

Lemma win_run_app ops1 ops2 st :
  run frequency tid (ops1 ++ ops2) st =
  (fst (run frequency tid ops2 (fst (run frequency tid ops1 st))),
   snd (run frequency tid ops1 st) ++
   snd (run frequency tid ops2 (fst (run frequency tid ops1 st)))).
Proof.
  revert st. induction ops1 as [|op ops1 IH]; intros st.
  - simpl. now destruct (run frequency tid ops2 st).
  - rewrite <- app_comm_cons, !win_run_cons, IH. simpl. now rewrite app_assoc.
Qed.

Lemma win_scopes_app ops1 ops2 :
  scopes (ops1 ++ ops2) = scopes ops1 ++ scopes ops2.
Proof. unfold scopes. apply flat_map_app. Qed.

Lemma win_total_elapsed_app g1 g2 :
  total_elapsed (g1 ++ g2) = total_elapsed g1 + total_elapsed g2.
Proof.
  induction g1 as [|g g1 IH]; simpl; [reflexivity|].
  unfold total_elapsed in *. simpl. rewrite IH. lia.
Qed.

Lemma win_destructor_counts start end_ st :
  printed (snd (destructor frequency tid (constructor start) end_ st)) = [] ->
  let info' :=
    threadInfo (fst (destructor frequency tid (constructor start) end_ st)) in
  hitCount info' = wrap64 (hitCount (threadInfo st) + 1) /\
  accumulator info' = wrap64 (accumulator (threadInfo st) + elapsed start end_) /\
  name info' = name (threadInfo st).
Proof.
  destruct (win_destructor_outcome frequency tid start end_ st) as [H|H U|H U];
    simpl.
  - auto.
  - auto.
  - rewrite win_printed_app. simpl. intros E.
    destruct (printed (snd (initialize frequency st))); discriminate.
Qed.

Lemma win_run_counts ops st :
  printed (snd (run frequency tid ops st)) = [] ->
  in_ll (hitCount (threadInfo st)) ->
  in_ll (accumulator (threadInfo st)) ->
  let info' := threadInfo (fst (run frequency tid ops st)) in
  hitCount info' =
    wrap64 (hitCount (threadInfo st) + Z.of_nat (List.length (scopes ops))) /\
  accumulator info' =
    wrap64 (accumulator (threadInfo st) + total_elapsed (scopes ops)) /\
  name info' = name (threadInfo st).
Proof.
  revert st. induction ops as [|op ops IH]; intros st Hp Hh Ha.
  - simpl. rewrite !Z.add_0_r, !wrap64_id by assumption. auto.
  - rewrite win_run_cons in *. simpl fst in *. simpl snd in Hp.
    rewrite win_printed_app in Hp. apply app_eq_nil in Hp as [Hp1 Hp2].
    destruct op as [start end_|].
    + simpl step in *.
      destruct (win_destructor_counts start end_ st Hp1) as (Eh & Ea & En).
      destruct (IH _ Hp2) as (Ih & Ia & In_).
      { rewrite Eh. apply wrap64_range. }
      { rewrite Ea. apply wrap64_range. }
      cbv zeta. rewrite Ih, Ia, In_, Eh, Ea, En.
      rewrite !wrap64_add_l. simpl scopes. simpl List.length.
      unfold total_elapsed at 2. simpl fold_right. fold (total_elapsed (scopes ops)).
      repeat split; f_equal; lia.
    + simpl step in *. simpl fst in *.
      destruct (IH _ Hp2) as (Ih & Ia & In_);
        rewrite ?win_initialize_info; try assumption.
      cbv zeta. rewrite Ih, Ia, In_, !win_initialize_info. simpl scopes. auto.
Qed.

Lemma win_printed_needs_flush_step op st :
  flush_calls (snd (step frequency tid op st)) = O ->
  printed (snd (step frequency tid op st)) = [].
Proof.
  destruct op as [start end_|]; simpl; [|reflexivity].
  destruct (win_destructor_outcome frequency tid start end_ st) as [H|H U|H U];
    simpl; [reflexivity | intros; apply win_printed_initialize | discriminate].
Qed.

Lemma win_printed_needs_flush ops st :
  flush_calls (snd (run frequency tid ops st)) = O ->
  printed (snd (run frequency tid ops st)) = [].
Proof.
  revert st. induction ops as [|op ops IH]; intros st; [reflexivity|].
  rewrite win_run_cons. simpl snd. rewrite win_flush_calls_app, win_printed_app.
  intros H. apply Nat.eq_add_0 in H as [H1 H2].
  rewrite win_printed_needs_flush_step, IH by assumption. reflexivity.
Qed.

(** ** The states that runs produce *)

Lemma win_consistent_initial name : consistent frequency (initial name).
Proof. unfold consistent, initial, unset, clock_time, max_ll. simpl. lia. Qed.

Lemma win_consistent_step op st :
  clock_op op -> consistent frequency st ->
  consistent frequency (fst (step frequency tid op st)).
Proof.
  intros Hop [Hs Hc]. destruct op as [start end_|]; simpl in *.
  - destruct Hop as [Hstart Hend].
    destruct (win_destructor_outcome frequency tid start end_ st) as [H|H U|H U];
      unfold consistent; simpl; rewrite ?win_initialize_value.
    + auto.
    + split; [right|assumption].
      destruct Hs as [[-> _]| Hs]; [reflexivity|].
      destruct (s_reportInterval st =? 0); congruence.
    + split; [right|assumption].
      destruct Hs as [[-> _]| Hs]; [reflexivity|].
      destruct (s_reportInterval st =? 0); congruence.
  - unfold consistent. rewrite win_initialize_value, win_initialize_info.
    split; [right|assumption].
    destruct Hs as [[-> _]| Hs]; [reflexivity|].
    destruct (s_reportInterval st =? 0); congruence.
Qed.

Lemma win_consistent_run ops st :
  Forall clock_op ops -> consistent frequency st ->
  consistent frequency (fst (run frequency tid ops st)).
Proof.
  revert st. induction ops as [|op ops IH]; intros st Hops Hc; [assumption|].
  rewrite win_run_cons. simpl fst. inversion Hops; subst.
  apply IH; [assumption|]. now apply win_consistent_step.
Qed.

(** ** [s_reportInterval] *)

Lemma win_step_stable op st :
  s_reportInterval st <> 0 ->
  s_reportInterval (fst (step frequency tid op st)) = s_reportInterval st /\
  computations (snd (step frequency tid op st)) = [].
Proof.
  intros Hs. destruct op as [start end_|]; simpl.
  - destruct (win_destructor_outcome frequency tid start end_ st) as [H|H U|H U];
      simpl; rewrite ?win_initialize_set by assumption; simpl; auto.
  - rewrite win_initialize_set by assumption. auto.
Qed.

Lemma win_run_stable ops st :
  s_reportInterval st <> 0 ->
  s_reportInterval (fst (run frequency tid ops st)) = s_reportInterval st /\
  computations (snd (run frequency tid ops st)) = [].
Proof.
  revert st. induction ops as [|op ops IH]; intros st Hs; [auto|].
  rewrite win_run_cons. simpl fst. simpl snd.
  destruct (win_step_stable op st Hs) as [E1 E2].
  destruct (IH (fst (step frequency tid op st))) as [E3 E4]; [congruence|].
  rewrite win_computations_app, E2, E4, E3, E1. auto.
Qed.

Lemma win_step_computations op st :
  computations (snd (step frequency tid op st)) = [] \/
  (computations (snd (step frequency tid op st)) = [interval_value frequency] /\
   s_reportInterval st = 0 /\
   s_reportInterval (fst (step frequency tid op st)) = interval_value frequency).
Proof.
  destruct (Z.eq_dec (s_reportInterval st) 0) as [Hs|Hs].
  - destruct op as [start end_|]; simpl; [|auto].
    destruct (win_destructor_outcome frequency tid start end_ st) as [H|H U|H U];
      simpl; [auto | right | right];
      rewrite ?win_computations_app, win_initialize_events,
              win_initialize_value, Hs;
      simpl; auto.
  - left. now apply win_step_stable.
Qed.

Lemma win_run_computations ops st :
  counter_rate frequency ->
  computations (snd (run frequency tid ops st)) = [] \/
  (computations (snd (run frequency tid ops st)) = [interval_value frequency] /\
   s_reportInterval st = 0).
Proof.
  intros Hf. pose proof (win_interval_value frequency Hf) as [_ Hpos].
  revert st. induction ops as [|op ops IH]; intros st; [now left|].
  rewrite win_run_cons. simpl snd. rewrite win_computations_app.
  destruct (win_step_computations op st) as [E|(E & Hs & Hs')]; rewrite E.
  - destruct (IH (fst (step frequency tid op st))) as [E'|[E' H0]]; rewrite E'.
    + now left.
    + right. split; [reflexivity|].
      destruct (Z.eq_dec (s_reportInterval st) 0) as [|Hn]; [assumption|].
      destruct (win_step_stable op st Hn) as [E1 _]. congruence.
  - right. split; [|assumption].
    destruct (win_run_stable ops (fst (step frequency tid op st))) as [_ E'];
      [lia|].
    now rewrite E'.
Qed.

(** ** [lastReportTime] *)

Lemma win_step_forward op st :
  clock_op op -> 0 <= s_reportInterval st -> 0 <= interval_value frequency ->
  clock_time (lastReportTime (threadInfo st)) ->
  lastReportTime (threadInfo st)
    <= lastReportTime (threadInfo (fst (step frequency tid op st))) /\
  0 <= s_reportInterval (fst (step frequency tid op st)) /\
  clock_time (lastReportTime (threadInfo (fst (step frequency tid op st)))).
Proof.
  intros Hop Hs Hv Hc. destruct op as [start end_|]; simpl in *.
  - destruct Hop as [Hstart Hend].
    destruct (win_destructor_outcome frequency tid start end_ st) as [H|H U|H U];
      simpl; rewrite ?win_initialize_value.
    + repeat split; try lia; apply Hc.
    + unfold unset in U. rewrite U. unfold clock_time in *.
      destruct (s_reportInterval st =? 0); repeat split; lia.
    + rewrite win_elapsed_clock in H by assumption. unfold clock_time in *.
      destruct (s_reportInterval st =? 0); repeat split; lia.
  - rewrite win_initialize_value, win_initialize_info.
    destruct (s_reportInterval st =? 0); repeat split; try lia; apply Hc.
Qed.

Lemma win_run_forward ops st :
  Forall clock_op ops -> 0 <= s_reportInterval st ->
  0 <= interval_value frequency ->
  clock_time (lastReportTime (threadInfo st)) ->
  lastReportTime (threadInfo st)
    <= lastReportTime (threadInfo (fst (run frequency tid ops st))) /\
  0 <= s_reportInterval (fst (run frequency tid ops st)) /\
  clock_time (lastReportTime (threadInfo (fst (run frequency tid ops st)))).
Proof.
  intros Hops Hs Hv. revert st Hops Hs.
  induction ops as [|op ops IH]; intros st Hops Hs Hc.
  - simpl. repeat split; try lia; apply Hc.
  - rewrite win_run_cons. simpl fst. inversion Hops; subst.
    destruct (win_step_forward op st) as (F1 & F2 & F3); try assumption.
    destruct (IH (fst (step frequency tid op st))) as (G1 & G2 & G3);
      try assumption.
    repeat split; try lia; apply G3.
Qed.

(** ** The printed line *)

Lemma win_report_layout oo info end_ :
  let interval :=
    float_mul (float_of_Z (wrap64 (end_ - lastReportTime info))) oo in
  let measured := float_mul (float_of_Z (accumulator info)) oo in
  report tid oo info end_ =
  ("TID 0x" ++ fmt_hex (tid mod 2 ^ 32) ++
   " time spent in " ++ dquote ++ name info ++ dquote ++ ": " ++
   fmt_fixed 0 (float_mul measured (float_of_Z 1000000)) ++ "/" ++
   fmt_fixed 0 (float_mul interval (float_of_Z 1000000)) ++ " microsec " ++
   fmt_fixed 1 (float_div (float_mul (float_of_Z 100) measured) interval) ++
   "% " ++ fmt_dec (wrap32 (hitCount info)) ++ "x" ++ newline)%string.
Proof.
  unfold report, printf, format, dquote, newline.
  cbn -[fmt_dec fmt_hex fmt_fixed wrap32 wrap64 float_of_Z float_div float_mul
        Z.modulo Z.pow].
  reflexivity.
Qed.

End WindowsRuns.

(* ================================================================== *)
(** * The build-time switch *)

Section Switch.
Variables APIProfiler State Event Stamp Action : Type.
Variable constructor : Stamp -> APIProfiler.
Variable destructor : APIProfiler -> Stamp -> State -> State * list Event.
Variable read_clock : Z -> Stamp.

(** Code without instrumentation runs the same whatever the switch. *)
Lemma exec_erased flag flag' (c : Code Action) clock st :
  exec flag constructor destructor read_clock (erase c) clock st =
  exec flag' constructor destructor read_clock (erase c) clock st.
Proof.
  revert clock st. induction c as [|a d|c1 IH1 c2 IH2|body IH]; intros clock st;
    simpl; try reflexivity.
  - rewrite (IH1 clock st).
    destruct (exec flag' constructor destructor read_clock (erase c1) clock st)
      as [[clock1 st1] obs1].
    rewrite (IH2 clock1 st1). reflexivity.
  - apply IH.
Qed.

Lemma exec_disabled (c : Code Action) clock st :
  let '(clock', st', obs) :=
    exec false constructor destructor read_clock c clock st in
  exec false constructor destructor read_clock (erase c) clock st
    = (clock', st', obs) /\
  st' = st /\ profiler_events obs = [].
Proof.
  revert clock st. induction c as [|a d|c1 IH1 c2 IH2|body IH]; intros clock st;
    simpl.
  - auto.
  - auto.
  - specialize (IH1 clock st).
    destruct (exec false constructor destructor read_clock c1 clock st)
      as [[clock1 st1] obs1].
    destruct IH1 as (E1 & -> & P1). rewrite E1.
    specialize (IH2 clock1 st).
    destruct (exec false constructor destructor read_clock c2 clock1 st)
      as [[clock2 st2] obs2].
    destruct IH2 as (E2 & -> & P2). rewrite E2.
    repeat split. unfold profiler_events in *.
    now rewrite flat_map_app, P1, P2.
  - specialize (IH clock st).
    destruct (exec false constructor destructor read_clock body clock st)
      as [[clock1 st1] obs1].
    exact IH.
Qed.

End Switch.

(* ================================================================== *)
(** * Racing initialisations *)

Section RaceFacts.
Variable value : Z.
Hypothesis value_nonzero : value <> 0.

Lemma schedule_cons a rest sh :
  schedule value (a :: rest) sh =
  (fst (schedule value rest (fst (access value a sh))),
   snd (access value a sh) ++ snd (schedule value rest (fst (access value a sh)))).
Proof.
  cbn [schedule]. destruct (access value a sh) as [sh1 l1]. cbn [fst snd].
  destruct (schedule value rest sh1) as [sh2 l2]. reflexivity.
Qed.

Lemma computed_by_app t l1 l2 :
  computed_by t (l1 ++ l2) = (computed_by t l1 + computed_by t l2)%nat.
Proof. unfold computed_by. now rewrite filter_app, length_app. Qed.

Lemma computed_by_one t u v :
  computed_by t [(u, v)] = if Nat.eqb t u then 1%nat else O.
Proof. unfold computed_by. cbn. destruct (Nat.eqb t u); reflexivity. Qed.

Lemma is_inside_removed t u sh :
  existsb (Nat.eqb u) (filter (fun w => negb (Nat.eqb t w)) (inside sh)) = true ->
  is_inside u sh = true /\ t <> u.
Proof.
  unfold is_inside. rewrite !existsb_exists.
  intros (w & Hw & E). apply filter_In in Hw as [Hin Hne].
  apply Nat.eqb_eq in E. subst w. split.
  - exists u. split; [assumption | apply Nat.eqb_refl].
  - intros ->. rewrite Nat.eqb_refl in Hne. discriminate.
Qed.

Lemma access_invariant a sh log :
  race_invariant value sh log ->
  race_invariant value (fst (access value a sh)) (log ++ snd (access value a sh)).
Proof.
  intros (Hv & Hlog & Hone & Hin & Hval).
  destruct a as [t|t]; cbn [access].
  - destruct (is_inside t sh) eqn:Ei; cbn [fst snd];
      [rewrite app_nil_r; repeat split; assumption|].
    destruct (Z.eqb_spec (interval sh) 0) as [Z0|Zn]; cbn [fst snd];
      rewrite app_nil_r; [|repeat split; assumption].
    refine (conj _ (conj _ (conj _ (conj _ _)))); try assumption.
    intros u Hu. unfold is_inside in Hu. cbn [inside existsb] in Hu.
    apply orb_true_iff in Hu as [Hu|Hu]; [|now apply Hin].
    apply Nat.eqb_eq in Hu. subst u.
    destruct log as [|c log]; [reflexivity|].
    exfalso. apply value_nonzero. rewrite <- Hlog by discriminate. exact Z0.
  - destruct (is_inside t sh) eqn:Ei; cbn [fst snd];
      [|rewrite app_nil_r; repeat split; assumption].
    refine (conj _ (conj _ (conj _ (conj _ _)))).
    + now right.
    + reflexivity.
    + intros u. rewrite computed_by_app, computed_by_one.
      destruct (Nat.eqb_spec u t) as [->|Hne].
      * rewrite (Hin t Ei). lia.
      * specialize (Hone u). lia.
    + intros u Hu. unfold is_inside in Hu. cbn [inside] in Hu.
      apply is_inside_removed in Hu as [Hu Hne].
      rewrite computed_by_app, computed_by_one, (Hin u Hu).
      destruct (Nat.eqb_spec u t) as [->|_]; [contradiction | reflexivity].
    + intros u v Hu. apply in_app_or in Hu as [Hu|[Hu|[]]].
      * now apply (Hval u).
      * now inversion Hu.
Qed.

Lemma schedule_invariant accesses sh log :
  race_invariant value sh log ->
  race_invariant value (fst (schedule value accesses sh))
    (log ++ snd (schedule value accesses sh)).
Proof.
  revert sh log. induction accesses as [|a rest IH]; intros sh log H.
  - cbn. now rewrite app_nil_r.
  - rewrite schedule_cons. cbn [fst snd]. rewrite app_assoc.
    apply IH. now apply access_invariant.
Qed.

Lemma race_invariant_start : race_invariant value (mk_Shared 0 []) [].
Proof.
  refine (conj _ (conj _ (conj _ (conj _ _)))).
  - now left.
  - intros C. now contradiction C.
  - intros t. unfold computed_by. cbn. lia.
  - intros t H. reflexivity.
  - intros t v [].
Qed.

(** Once the shared variable holds the value no access changes it. *)
Lemma schedule_stable accesses sh :
  interval sh = value -> interval (fst (schedule value accesses sh)) = value.
Proof.
  revert sh. induction accesses as [|a rest IH]; intros sh H; [exact H|].
  rewrite schedule_cons. cbn [fst]. apply IH.
  destruct a as [t|t]; cbn [access].
  - destruct (is_inside t sh); [exact H|].
    destruct (interval sh =? 0); exact H.
  - destruct (is_inside t sh); [reflexivity | exact H].
Qed.

(** A thread alone, testing and then assigning, does what the lazy
    initialisation of [Flush] does. *)
Lemma alone_is_initialize t s :
  schedule value [Test t; Assign t] (mk_Shared s []) =
  if s =? 0 then (mk_Shared value [], [(t, value)])
  else (mk_Shared s [], []).
Proof.
  cbn [schedule access is_inside inside existsb interval].
  destruct (s =? 0).
  - cbn [is_inside inside existsb interval]. rewrite Nat.eqb_refl.
    cbn [orb filter negb app]. rewrite Nat.eqb_refl. reflexivity.
  - cbn [is_inside inside existsb interval]. reflexivity.
Qed.

End RaceFacts.

(* ================================================================== *)
(** * Properties of the profiler *)

Ltac ll_bounds := unfold in_ll, min_ll, max_ll; split; vm_compute; discriminate.

(** C1.  Over any sequence of guard constructions and destructions on one
    record in which no destruction calls [Flush], starting from zero
    counters, [hitCount] ends as the number N of guards and [accumulator]
    as the sum of the guards' elapsed deltas (both within the range of
    the 64-bit counters).  Holds in both builds. *)
Theorem guards_accumulate_without_flush :
  (forall tid ops st,
     Unix.flush_calls (snd (Unix.run tid ops st)) = O ->
     Unix.hitCount (Unix.threadInfo st) = 0 ->
     Unix.accumulator (Unix.threadInfo st) = 0 ->
     in_ll (Z.of_nat (List.length (Unix.scopes ops))) ->
     in_ll (Unix.total_elapsed (Unix.scopes ops)) ->
     Unix.hitCount (Unix.threadInfo (fst (Unix.run tid ops st)))
       = Z.of_nat (List.length (Unix.scopes ops)) /\
     Unix.accumulator (Unix.threadInfo (fst (Unix.run tid ops st)))
       = Unix.total_elapsed (Unix.scopes ops))
  /\
  (forall frequency tid ops st,
     Windows.flush_calls (snd (Windows.run frequency tid ops st)) = O ->
     Windows.hitCount (Windows.threadInfo st) = 0 ->
     Windows.accumulator (Windows.threadInfo st) = 0 ->
     in_ll (Z.of_nat (List.length (Windows.scopes ops))) ->
     in_ll (Windows.total_elapsed (Windows.scopes ops)) ->
     Windows.hitCount
       (Windows.threadInfo (fst (Windows.run frequency tid ops st)))
       = Z.of_nat (List.length (Windows.scopes ops)) /\
     Windows.accumulator
       (Windows.threadInfo (fst (Windows.run frequency tid ops st)))
       = Windows.total_elapsed (Windows.scopes ops)).
Proof.
  split.
  - intros tid ops st Hf Hh Ha HN HS.
    apply printed_needs_flush in Hf.
    destruct (run_counts tid ops st Hf) as (Eh & Ea & _).
    + rewrite Hh. ll_bounds.
    + rewrite Ha. ll_bounds.
    + rewrite Eh, Ea, Hh, Ha, !Z.add_0_l, !wrap64_id by assumption. auto.
  - intros frequency tid ops st Hf Hh Ha HN HS.
    apply win_printed_needs_flush in Hf.
    destruct (win_run_counts frequency tid ops st Hf) as (Eh & Ea & _).
    + rewrite Hh. ll_bounds.
    + rewrite Ha. ll_bounds.
    + rewrite Eh, Ea, Hh, Ha, !Z.add_0_l, !wrap64_id by assumption. auto.
Qed.

Lemma guards_accumulate_without_flush_witness :
  (let st := Unix.mk_State 1000000
               (Unix.mk_ThreadInfo (Unix.mk_timespec 5 0) 0 0 "db") in
   let ops := [Unix.Scope (Unix.mk_timespec 5 1000) (Unix.mk_timespec 5 3500);
               Unix.Scope (Unix.mk_timespec 5 4000) (Unix.mk_timespec 5 5000)] in
   Unix.hitCount (Unix.threadInfo (fst (Unix.run 42 ops st))) = 2 /\
   Unix.accumulator (Unix.threadInfo (fst (Unix.run 42 ops st))) = 3)
  /\
  (let st := Windows.mk_State (S754_zero false) 10000000
               (Windows.mk_ThreadInfo 5000 0 0 "db") in
   let ops := [Windows.Scope 6000 6500; Windows.Scope 7000 7100] in
   Windows.hitCount
     (Windows.threadInfo (fst (Windows.run 10000000 7 ops st))) = 2 /\
   Windows.accumulator
     (Windows.threadInfo (fst (Windows.run 10000000 7 ops st))) = 600).
Proof.
  split; cbv zeta.
  - apply (proj1 guards_accumulate_without_flush 42
             [Unix.Scope (Unix.mk_timespec 5 1000) (Unix.mk_timespec 5 3500);
              Unix.Scope (Unix.mk_timespec 5 4000) (Unix.mk_timespec 5 5000)]
             (Unix.mk_State 1000000
                (Unix.mk_ThreadInfo (Unix.mk_timespec 5 0) 0 0 "db")));
      try reflexivity; ll_bounds.
  - apply (proj2 guards_accumulate_without_flush 10000000 7
             [Windows.Scope 6000 6500; Windows.Scope 7000 7100]
             (Windows.mk_State (S754_zero false) 10000000
                (Windows.mk_ThreadInfo 5000 0 0 "db")));
      try reflexivity; ll_bounds.
Defined.

(** C2.  A guard's destruction calls [Flush] if and only if the elapsed
    time from the record's [lastReportTime] to the destruction's [end]
    exceeds [s_reportInterval]; when it does not exceed it (in particular
    when less than the interval has passed) nothing is printed.  Holds in
    both builds. *)
Theorem flush_iff_interval_exceeded :
  (forall tid start end_ st,
     let result := Unix.destructor tid (Unix.constructor start) end_ st in
     let waited :=
       Unix.elapsed (Unix.lastReportTime (Unix.threadInfo st)) end_ in
     (In Unix.FlushCalled (snd result) <-> Unix.s_reportInterval st < waited)
     /\ (waited <= Unix.s_reportInterval st -> Unix.printed (snd result) = []))
  /\
  (forall frequency tid start end_ st,
     let result :=
       Windows.destructor frequency tid (Windows.constructor start) end_ st in
     let waited :=
       Windows.elapsed (Windows.lastReportTime (Windows.threadInfo st)) end_ in
     (In Windows.FlushCalled (snd result)
        <-> Windows.s_reportInterval st < waited)
     /\ (waited <= Windows.s_reportInterval st ->
         Windows.printed (snd result) = [])).
Proof.
  split.
  - intros tid start end_ st. cbv zeta.
    destruct (destructor_outcome tid start end_ st) as [H|H U|H U]; simpl.
    + split; [split; [tauto | lia] | reflexivity].
    + split; [split; auto | lia].
    + split; [split; auto | lia].
  - intros frequency tid start end_ st. cbv zeta.
    destruct (win_destructor_outcome frequency tid start end_ st)
      as [H|H U|H U]; simpl.
    + split; [split; [tauto | lia] | reflexivity].
    + split; [split; auto | lia].
    + split; [split; auto | lia].
Qed.

Lemma flush_iff_interval_exceeded_witness :
  Unix.printed
    (snd (Unix.destructor 42
            (Unix.constructor (Unix.mk_timespec 5 999000000))
            (Unix.mk_timespec 6 0)
            (Unix.mk_State 1000000
               (Unix.mk_ThreadInfo (Unix.mk_timespec 5 0) 7 3 "db")))) = []
  /\
  Windows.printed
    (snd (Windows.destructor 10000000 7 (Windows.constructor 9000000) 10005000
            (Windows.mk_State (S754_zero false) 10000000
               (Windows.mk_ThreadInfo 5000 7 3 "db")))) = [].
Proof.
  split.
  - apply (proj1 flush_iff_interval_exceeded 42
             (Unix.mk_timespec 5 999000000) (Unix.mk_timespec 6 0)
             (Unix.mk_State 1000000
                (Unix.mk_ThreadInfo (Unix.mk_timespec 5 0) 7 3 "db"))).
    vm_compute. discriminate.
  - apply (proj2 flush_iff_interval_exceeded 10000000 7 9000000 10005000
             (Windows.mk_State (S754_zero false) 10000000
                (Windows.mk_ThreadInfo 5000 7 3 "db"))).
    vm_compute. discriminate.
Defined.

(** C3 as the code has it.  The first destruction on a freshly defined
    record prints nothing; it adds the guard's elapsed delta to
    [accumulator] and makes [hitCount] 1, keeps the name, and sets
    [lastReportTime] to the guard's start when [Flush] is called (the
    elapsed time from the zero timestamp exceeds [s_reportInterval]),
    leaving it zero otherwise.  Holds in both builds. *)
Theorem first_destruction_counts_and_arms :
  (forall tid name s start end_,
     let st := Unix.mk_State s (Unix.DEFINE_API_PROFILER name) in
     let result := Unix.destructor tid (Unix.constructor start) end_ st in
     Unix.printed (snd result) = [] /\
     Unix.threadInfo (fst result) =
       Unix.mk_ThreadInfo
         (if s <? Unix.elapsed (Unix.mk_timespec 0 0) end_
          then start else Unix.mk_timespec 0 0)
         (Unix.elapsed start end_) 1 name)
  /\
  (forall frequency tid name oo s start end_,
     let st := Windows.mk_State oo s (Windows.DEFINE_API_PROFILER name) in
     let result :=
       Windows.destructor frequency tid (Windows.constructor start) end_ st in
     Windows.printed (snd result) = [] /\
     Windows.threadInfo (fst result) =
       Windows.mk_ThreadInfo
         (if s <? Windows.elapsed 0 end_ then start else 0)
         (Windows.elapsed start end_) 1 name).
Proof.
  split.
  - intros tid name s start end_. cbv zeta.
    destruct (destructor_outcome tid start end_
                (Unix.mk_State s (Unix.DEFINE_API_PROFILER name)))
      as [H|H U|H U]; simpl in *.
    + destruct (Z.ltb_spec s (Unix.elapsed (Unix.mk_timespec 0 0) end_)); [lia|].
      split; [reflexivity|]. unfold Unix.counted. simpl.
      now rewrite wrap64_id by apply elapsed_range.
    + destruct (Z.ltb_spec s (Unix.elapsed (Unix.mk_timespec 0 0) end_)); [|lia].
      split; [apply printed_initialize|].
      now rewrite wrap64_id by apply elapsed_range.
    + exfalso. apply U. split; reflexivity.
  - intros frequency tid name oo s start end_. cbv zeta.
    destruct (win_destructor_outcome frequency tid start end_
                (Windows.mk_State oo s (Windows.DEFINE_API_PROFILER name)))
      as [H|H U|H U]; simpl in *.
    + destruct (Z.ltb_spec s (Windows.elapsed 0 end_)); [lia|].
      split; [reflexivity|]. unfold Windows.counted. simpl.
      now rewrite wrap64_id by apply win_elapsed_range.
    + destruct (Z.ltb_spec s (Windows.elapsed 0 end_)); [|lia].
      split; [apply win_printed_initialize|].
      now rewrite wrap64_id by apply win_elapsed_range.
    + exfalso. apply U. reflexivity.
Qed.

(** C3 as stated fails: the first destruction on a fresh record, from
    5 s to 5.0000025 s, leaves the record with [hitCount] 1 and
    [accumulator] 2, not with only [lastReportTime] set. *)
Lemma first_destruction_changes_counters :
  let result :=
    Unix.destructor 42 (Unix.constructor (Unix.mk_timespec 5 0))
      (Unix.mk_timespec 5 2500) (Unix.initial "db") in
  Unix.threadInfo (fst result)
    = Unix.mk_ThreadInfo (Unix.mk_timespec 5 0) 2 1 "db" /\
  Unix.threadInfo (fst result)
    <> Unix.mk_ThreadInfo (Unix.mk_timespec 5 0) 0 0 "db".
Proof.
  cbv zeta. split; [reflexivity|]. vm_compute. discriminate.
Qed.

(** C4.  In every state a run from the initial state produces (clock
    readings as the clock delivers them), when a destruction reaches the
    division of [Flush] (a line is printed), [s_reportInterval] is
    positive and the interval that divides exceeds it: on Unix the
    nanosecond count that is converted and divided by 1000 exceeds 1000
    times [s_reportInterval]; on Windows the tick count exceeds
    [s_reportInterval].  So the divisor is never a zero interval. *)
Theorem flush_division_interval_positive :
  (forall tid name ops start end_,
     Forall Unix.clock_op ops ->
     Unix.clock_time start -> Unix.clock_time end_ ->
     let st := fst (Unix.run tid ops (Unix.initial name)) in
     let result := Unix.destructor tid (Unix.constructor start) end_ st in
     Unix.printed (snd result) <> [] ->
     0 < Unix.s_reportInterval (fst result) /\
     1000 * Unix.s_reportInterval (fst result)
       < Unix.interval_ns (Unix.lastReportTime (Unix.threadInfo st)) end_)
  /\
  (forall frequency tid name ops start end_,
     Windows.counter_rate frequency ->
     Forall Windows.clock_op ops ->
     Windows.clock_time start -> Windows.clock_time end_ ->
     let st := fst (Windows.run frequency tid ops (Windows.initial name)) in
     let result :=
       Windows.destructor frequency tid (Windows.constructor start) end_ st in
     Windows.printed (snd result) <> [] ->
     0 < Windows.s_reportInterval (fst result) /\
     Windows.s_reportInterval (fst result)
       < wrap64 (end_ - Windows.lastReportTime (Windows.threadInfo st))).
Proof.
  split.
  - intros tid name ops start end_ Hops Hstart Hend. cbv zeta.
    pose proof (consistent_run tid ops (Unix.initial name) Hops
                  (consistent_initial name)) as [Hs Hc].
    set (st := fst (Unix.run tid ops (Unix.initial name))) in *.
    destruct (destructor_outcome tid start end_ st) as [H|H U|H U]; simpl.
    + intros C. now contradiction C.
    + rewrite printed_initialize. intros C. now contradiction C.
    + intros _. destruct Hs as [[_ Hu]|Hs]; [contradiction|].
      rewrite initialize_value, Hs. simpl. split; [lia|].
      rewrite Hs in H.
      pose proof (elapsed_gt _ end_ 1000000 Hc Hend ltac:(lia) H).
      pose proof (NanoSec_error _ Hc). pose proof (NanoSec_error _ Hend).
      rewrite interval_ns_exact by assumption. lia.
  - intros frequency tid name ops start end_ Hf Hops Hstart Hend. cbv zeta.
    pose proof (win_consistent_run frequency tid ops (Windows.initial name)
                  Hops (win_consistent_initial frequency name)) as [Hs Hc].
    pose proof (win_interval_value frequency Hf) as [_ Hpos].
    set (st := fst (Windows.run frequency tid ops (Windows.initial name))) in *.
    destruct (win_destructor_outcome frequency tid start end_ st)
      as [H|H U|H U]; simpl.
    + intros C. now contradiction C.
    + rewrite win_printed_initialize. intros C. now contradiction C.
    + intros _. destruct Hs as [[_ Hu]|Hs]; [contradiction|].
      rewrite win_initialize_value, Hs.
      destruct (Z.eqb_spec (Windows.interval_value frequency) 0); [lia|].
      split; [lia|]. rewrite Hs in H. exact H.
Qed.

Lemma flush_division_interval_positive_witness :
  (let st := fst (Unix.run 42
                    [Unix.Scope (Unix.mk_timespec 5 0) (Unix.mk_timespec 5 2500)]
                    (Unix.initial "db")) in
   let result :=
     Unix.destructor 42 (Unix.constructor (Unix.mk_timespec 6 0))
       (Unix.mk_timespec 6 1500) st in
   0 < Unix.s_reportInterval (fst result) /\
   1000 * Unix.s_reportInterval (fst result)
     < Unix.interval_ns (Unix.lastReportTime (Unix.threadInfo st))
         (Unix.mk_timespec 6 1500))
  /\
  (let st := fst (Windows.run 10000000 7 [Windows.Scope 5000 6000]
                    (Windows.initial "db")) in
   let result :=
     Windows.destructor 10000000 7 (Windows.constructor 10007000) 10008000 st in
   0 < Windows.s_reportInterval (fst result) /\
   Windows.s_reportInterval (fst result)
     < wrap64 (10008000 - Windows.lastReportTime (Windows.threadInfo st))).
Proof.
  split.
  - apply (proj1 flush_division_interval_positive 42 "db"%string
             [Unix.Scope (Unix.mk_timespec 5 0) (Unix.mk_timespec 5 2500)]
             (Unix.mk_timespec 6 0) (Unix.mk_timespec 6 1500)).
    + repeat constructor; simpl; lia.
    + unfold Unix.clock_time; simpl; lia.
    + unfold Unix.clock_time; simpl; lia.
    + vm_compute. discriminate.
  - apply (proj2 flush_division_interval_positive 10000000 7 "db"%string
             [Windows.Scope 5000 6000] 10007000 10008000).
    + unfold Windows.counter_rate. lia.
    + repeat constructor; unfold Windows.clock_time, max_ll; lia.
    + unfold Windows.clock_time, max_ll; lia.
    + unfold Windows.clock_time, max_ll; lia.
    + vm_compute. discriminate.
Defined.

(** C5.  A destruction that prints leaves the record with [accumulator]
    0, [hitCount] 0 and [lastReportTime] equal to its [end]; and over any
    sequence of steps with clock readings, from a state whose
    [s_reportInterval] is not negative, [lastReportTime] never
    decreases.  Holds in both builds. *)
Theorem flush_resets_and_advances :
  ((forall tid start end_ st,
      let result := Unix.destructor tid (Unix.constructor start) end_ st in
      Unix.printed (snd result) <> [] ->
      Unix.threadInfo (fst result)
        = Unix.mk_ThreadInfo end_ 0 0 (Unix.name (Unix.threadInfo st)))
   /\
   (forall tid ops st,
      Forall Unix.clock_op ops ->
      0 <= Unix.s_reportInterval st ->
      Unix.clock_time (Unix.lastReportTime (Unix.threadInfo st)) ->
      Unix.ns (Unix.lastReportTime (Unix.threadInfo st))
        <= Unix.ns (Unix.lastReportTime
                      (Unix.threadInfo (fst (Unix.run tid ops st))))))
  /\
  ((forall frequency tid start end_ st,
      let result :=
        Windows.destructor frequency tid (Windows.constructor start) end_ st in
      Windows.printed (snd result) <> [] ->
      Windows.threadInfo (fst result)
        = Windows.mk_ThreadInfo end_ 0 0 (Windows.name (Windows.threadInfo st)))
   /\
   (forall frequency tid ops st,
      Windows.counter_rate frequency ->
      Forall Windows.clock_op ops ->
      0 <= Windows.s_reportInterval st ->
      Windows.clock_time (Windows.lastReportTime (Windows.threadInfo st)) ->
      Windows.lastReportTime (Windows.threadInfo st)
        <= Windows.lastReportTime
             (Windows.threadInfo (fst (Windows.run frequency tid ops st))))).
Proof.
  split; split.
  - intros tid start end_ st. cbv zeta.
    destruct (destructor_outcome tid start end_ st) as [H|H U|H U]; simpl.
    + intros C. now contradiction C.
    + rewrite printed_initialize. intros C. now contradiction C.
    + reflexivity.
  - intros tid ops st Hops Hs Hc. now apply run_forward.
  - intros frequency tid start end_ st. cbv zeta.
    destruct (win_destructor_outcome frequency tid start end_ st)
      as [H|H U|H U]; simpl.
    + intros C. now contradiction C.
    + rewrite win_printed_initialize. intros C. now contradiction C.
    + reflexivity.
  - intros frequency tid ops st Hf Hops Hs Hc.
    pose proof (win_interval_value frequency Hf) as [_ Hpos].
    apply win_run_forward; try assumption. lia.
Qed.

Lemma flush_resets_and_advances_witness :
  (let st := Unix.mk_State 1000000
               (Unix.mk_ThreadInfo (Unix.mk_timespec 5 0) 7 3 "db") in
   let result :=
     Unix.destructor 42 (Unix.constructor (Unix.mk_timespec 6 0))
       (Unix.mk_timespec 6 1500) st in
   Unix.threadInfo (fst result)
     = Unix.mk_ThreadInfo (Unix.mk_timespec 6 1500) 0 0 "db")
  /\
  (let ops := [Unix.Scope (Unix.mk_timespec 5 0) (Unix.mk_timespec 5 2500);
               Unix.Scope (Unix.mk_timespec 6 0) (Unix.mk_timespec 6 1500)] in
   Unix.ns (Unix.lastReportTime (Unix.threadInfo (Unix.initial "db")))
     <= Unix.ns (Unix.lastReportTime
                   (Unix.threadInfo (fst (Unix.run 42 ops (Unix.initial "db"))))))
  /\
  (let st := Windows.mk_State (S754_zero false) 10000000
               (Windows.mk_ThreadInfo 5000 7 3 "db") in
   let result :=
     Windows.destructor 10000000 7 (Windows.constructor 10007000) 10008000 st in
   Windows.threadInfo (fst result) = Windows.mk_ThreadInfo 10008000 0 0 "db")
  /\
  (let ops := [Windows.Scope 5000 6000; Windows.Scope 10007000 10008000] in
   Windows.lastReportTime (Windows.threadInfo (Windows.initial "db"))
     <= Windows.lastReportTime
          (Windows.threadInfo
             (fst (Windows.run 10000000 7 ops (Windows.initial "db"))))).
Proof.
  split; [|split; [|split]]; cbv zeta.
  - apply (proj1 (proj1 flush_resets_and_advances) 42 (Unix.mk_timespec 6 0)
             (Unix.mk_timespec 6 1500)
             (Unix.mk_State 1000000
                (Unix.mk_ThreadInfo (Unix.mk_timespec 5 0) 7 3 "db"))).
    vm_compute. discriminate.
  - apply (proj2 (proj1 flush_resets_and_advances) 42
             [Unix.Scope (Unix.mk_timespec 5 0) (Unix.mk_timespec 5 2500);
              Unix.Scope (Unix.mk_timespec 6 0) (Unix.mk_timespec 6 1500)]
             (Unix.initial "db")).
    + repeat constructor; simpl; lia.
    + simpl. lia.
    + unfold Unix.clock_time; simpl; lia.
  - apply (proj1 (proj2 flush_resets_and_advances) 10000000 7 10007000 10008000
             (Windows.mk_State (S754_zero false) 10000000
                (Windows.mk_ThreadInfo 5000 7 3 "db"))).
    vm_compute. discriminate.
  - apply (proj2 (proj2 flush_resets_and_advances) 10000000 7
             [Windows.Scope 5000 6000; Windows.Scope 10007000 10008000]
             (Windows.initial "db")).
    + unfold Windows.counter_rate. lia.
    + repeat constructor; unfold Windows.clock_time, max_ll; lia.
    + simpl. lia.
    + unfold Windows.clock_time, max_ll; simpl; lia.
Defined.

(** C6 as stated fails.  Two threads whose first flushes race both find
    [s_reportInterval] zero before either assigns it, and both compute
    it: two computations, of the same value. *)
Lemma two_racing_threads_compute_twice :
  let result :=
    schedule (10 ^ 6 * Unix.APIProfiler_ReportIntervalSecs)
      [Test 1; Test 2; Assign 1; Assign 2] (mk_Shared 0 []) in
  snd result = [(1%nat, 1000000); (2%nat, 1000000)] /\
  ~ (List.length (snd result) <= 1)%nat.
Proof.
  cbv zeta. split; [reflexivity|]. vm_compute. lia.
Qed.

(** C6 as the code has it.  A call of [Flush] that finds
    [s_reportInterval] zero computes and assigns it: the clock's units
    per second times the one-second target (10^6 microseconds on Unix;
    the performance counter's frequency as a [float], positive, on
    Windows).  Each thread computes it at most once: in a thread's own
    sequence of steps, and under any interleaving of the tests and
    assignments of racing threads, where several threads may each
    compute it, all the same value.  Once it is non-zero no step of a
    thread computes or changes it, and once it holds the value no access
    of any thread changes it.  The lazy initialisation of [Flush] is a
    thread's test and assignment with no other thread between them. *)
Theorem report_interval_computed_once_per_thread :
  ((forall tid this end_ st,
      Unix.s_reportInterval st = 0 ->
      Unix.computations (snd (Unix.Flush tid this end_ st))
        = [10 ^ 6 * Unix.APIProfiler_ReportIntervalSecs] /\
      Unix.s_reportInterval (fst (Unix.Flush tid this end_ st))
        = 10 ^ 6 * Unix.APIProfiler_ReportIntervalSecs)
   /\
   (forall tid ops st,
      (List.length (Unix.computations (snd (Unix.run tid ops st))) <= 1)%nat /\
      (forall v, In v (Unix.computations (snd (Unix.run tid ops st))) ->
                 v = 10 ^ 6 * Unix.APIProfiler_ReportIntervalSecs) /\
      (Unix.s_reportInterval st <> 0 ->
       Unix.s_reportInterval (fst (Unix.run tid ops st))
         = Unix.s_reportInterval st /\
       Unix.computations (snd (Unix.run tid ops st)) = []))
   /\
   (forall accesses,
      let value := 10 ^ 6 * Unix.APIProfiler_ReportIntervalSecs in
      let result := schedule value accesses (mk_Shared 0 []) in
      (forall t, (computed_by t (snd result) <= 1)%nat) /\
      (forall t v, In (t, v) (snd result) -> v = value) /\
      (snd result <> [] -> interval (fst result) = value))
   /\
   (forall accesses sh,
      let value := 10 ^ 6 * Unix.APIProfiler_ReportIntervalSecs in
      interval sh = value ->
      interval (fst (schedule value accesses sh)) = value)
   /\
   (forall t st,
      let value := 10 ^ 6 * Unix.APIProfiler_ReportIntervalSecs in
      let alone :=
        schedule value [Test t; Assign t]
          (mk_Shared (Unix.s_reportInterval st) []) in
      interval (fst alone) = Unix.s_reportInterval (fst (Unix.initialize st)) /\
      map snd (snd alone) = Unix.computations (snd (Unix.initialize st))))
  /\
  (forall frequency,
     Windows.counter_rate frequency ->
     let value := to_float frequency * Windows.APIProfiler_ReportIntervalSecs in
     0 < value /\
     (forall tid this end_ st,
        Windows.s_reportInterval st = 0 ->
        Windows.computations (snd (Windows.Flush frequency tid this end_ st))
          = [value] /\
        Windows.s_reportInterval (fst (Windows.Flush frequency tid this end_ st))
          = value)
     /\
     (forall tid ops st,
        (List.length
           (Windows.computations (snd (Windows.run frequency tid ops st)))
         <= 1)%nat /\
        (forall v,
           In v (Windows.computations (snd (Windows.run frequency tid ops st)))
           -> v = value) /\
        (Windows.s_reportInterval st <> 0 ->
         Windows.s_reportInterval (fst (Windows.run frequency tid ops st))
           = Windows.s_reportInterval st /\
         Windows.computations (snd (Windows.run frequency tid ops st)) = []))
     /\
     (forall accesses,
        let result := schedule value accesses (mk_Shared 0 []) in
        (forall t, (computed_by t (snd result) <= 1)%nat) /\
        (forall t v, In (t, v) (snd result) -> v = value) /\
        (snd result <> [] -> interval (fst result) = value))
     /\
     (forall accesses sh,
        interval sh = value ->
        interval (fst (schedule value accesses sh)) = value)
     /\
     (forall t st,
        let alone :=
          schedule value [Test t; Assign t]
            (mk_Shared (Windows.s_reportInterval st) []) in
        interval (fst alone)
          = Windows.s_reportInterval (fst (Windows.initialize frequency st)) /\
        map snd (snd alone)
          = Windows.computations (snd (Windows.initialize frequency st)))).
Proof.
  split.
  - assert (Hv : 10 ^ 6 * Unix.APIProfiler_ReportIntervalSecs <> 0)
      by (unfold Unix.APIProfiler_ReportIntervalSecs; lia).
    refine (conj _ (conj _ (conj _ (conj _ _)))).
    + intros tid this end_ st Hs.
      destruct (unset_dec (Unix.lastReportTime (Unix.threadInfo st))) as [U|U].
      * rewrite Flush_first by exact U. cbn [fst snd].
        change (Unix.computations (Unix.FlushCalled :: snd (Unix.initialize st)))
          with (Unix.computations (snd (Unix.initialize st))).
        rewrite initialize_events, initialize_value, Hs. split; reflexivity.
      * rewrite Flush_report by exact U. cbn [fst snd].
        change (Unix.computations
                  (Unix.FlushCalled :: snd (Unix.initialize st) ++
                   [Unix.Printed (Unix.report tid (Unix.threadInfo st) end_)]))
          with (Unix.computations
                  (snd (Unix.initialize st) ++
                   [Unix.Printed (Unix.report tid (Unix.threadInfo st) end_)])).
        rewrite computations_app, initialize_events, initialize_value, Hs.
        split; reflexivity.
    + intros tid ops st. refine (conj _ (conj _ _)).
      * destruct (run_computations tid ops st) as [E|[E _]]; rewrite E;
          simpl; lia.
      * intros v Hin.
        destruct (run_computations tid ops st) as [E|[E _]]; rewrite E in Hin;
          simpl in Hin; [contradiction|]. destruct Hin as [<-|[]]. reflexivity.
      * now apply run_stable.
    + intros accesses. cbv zeta.
      destruct (schedule_invariant _ Hv accesses (mk_Shared 0 []) []
                  (race_invariant_start _)) as (_ & Hlog & Hone & _ & Hval).
      cbn [app] in *. auto.
    + intros accesses sh. cbv zeta. apply schedule_stable.
    + intros t st. cbv zeta. rewrite alone_is_initialize.
      rewrite initialize_value, initialize_events.
      destruct (Unix.s_reportInterval st =? 0); split; reflexivity.
  - intros frequency Hf. cbv zeta.
    destruct (win_interval_value frequency Hf) as [Ev Hpos].
    assert (E1 : to_float frequency * Windows.APIProfiler_ReportIntervalSecs
                 = Windows.interval_value frequency).
    { rewrite Ev. unfold Windows.APIProfiler_ReportIntervalSecs. lia. }
    rewrite E1.
    assert (Hv : Windows.interval_value frequency <> 0) by lia.
    refine (conj _ (conj _ (conj _ (conj _ (conj _ _))))).
    + exact Hpos.
    + intros tid this end_ st Hs.
      destruct (win_unset_dec (Windows.lastReportTime (Windows.threadInfo st)))
        as [U|U].
      * rewrite win_Flush_first by exact U. cbn [fst snd].
        change (Windows.computations
                  (Windows.FlushCalled :: snd (Windows.initialize frequency st)))
          with (Windows.computations (snd (Windows.initialize frequency st))).
        rewrite win_initialize_events, win_initialize_value, Hs.
        split; reflexivity.
      * rewrite win_Flush_report by exact U. cbn [fst snd].
        change (Windows.computations
                  (Windows.FlushCalled :: ?x)) with (Windows.computations x).
        rewrite win_computations_app, win_initialize_events,
                win_initialize_value, Hs.
        split; reflexivity.
    + intros tid ops st. refine (conj _ (conj _ _)).
      * destruct (win_run_computations frequency tid ops st Hf) as [E|[E _]];
          rewrite E; simpl; lia.
      * intros v Hin.
        destruct (win_run_computations frequency tid ops st Hf) as [E|[E _]];
          rewrite E in Hin; simpl in Hin; [contradiction|].
        destruct Hin as [<-|[]]. reflexivity.
      * now apply win_run_stable.
    + intros accesses.
      destruct (schedule_invariant _ Hv accesses (mk_Shared 0 []) []
                  (race_invariant_start _)) as (_ & Hlog & Hone & _ & Hval).
      cbn [app] in *. auto.
    + intros accesses sh. apply schedule_stable.
    + intros t st. rewrite alone_is_initialize.
      rewrite win_initialize_value, win_initialize_events.
      destruct (Windows.s_reportInterval st =? 0); split; reflexivity.
Qed.

Lemma report_interval_computed_once_per_thread_witness :
  (let result :=
     Unix.Flush 42 (Unix.constructor (Unix.mk_timespec 5 0))
       (Unix.mk_timespec 5 2500) (Unix.initial "db") in
   Unix.computations (snd result)
     = [10 ^ 6 * Unix.APIProfiler_ReportIntervalSecs] /\
   Unix.s_reportInterval (fst result)
     = 10 ^ 6 * Unix.APIProfiler_ReportIntervalSecs)
  /\
  (let result :=
     Windows.Flush 10000000 7 (Windows.constructor 5000) 6000
       (Windows.initial "db") in
   Windows.computations (snd result)
     = [to_float 10000000 * Windows.APIProfiler_ReportIntervalSecs] /\
   Windows.s_reportInterval (fst result)
     = to_float 10000000 * Windows.APIProfiler_ReportIntervalSecs).
Proof.
  split.
  - apply (proj1 (proj1 report_interval_computed_once_per_thread) 42
             (Unix.constructor (Unix.mk_timespec 5 0)) (Unix.mk_timespec 5 2500)
             (Unix.initial "db")).
    reflexivity.
  - apply (proj1 (proj2 (proj2 report_interval_computed_once_per_thread
                            10000000
                            ltac:(unfold Windows.counter_rate; lia)))
             7 (Windows.constructor 5000) 6000 (Windows.initial "db")).
    reflexivity.
Defined.

(** C7.  Every line a destruction prints has the fields in this order:
    [TID] and the thread's id, [time spent in] and the record's name in
    double quotes, the measured and the interval duration as
    [measured/interval microsec] with no decimals, the percentage
    [100 * measured / interval] with one decimal followed by [%], and
    the hit count followed by [x], then a newline.  The counters printed
    are those that include the guard being destroyed.  Holds in both
    builds, each with its own thread-id and hit-count conversion. *)
Theorem report_line_layout :
  (forall tid start end_ st line,
     In line (Unix.printed
                (snd (Unix.destructor tid (Unix.constructor start) end_ st))) ->
     let info := Unix.counted start end_ (Unix.threadInfo st) in
     let measured := double_of_Z (Unix.accumulator info) in
     let interval :=
       double_div
         (double_of_Z (Unix.interval_ns (Unix.lastReportTime info) end_))
         (double_of_Z 1000) in
     line =
     ("TID " ++ fmt_dec (wrap64 tid) ++
      " time spent in " ++ dquote ++ Unix.name info ++ dquote ++ ": " ++
      fmt_fixed 0 measured ++ "/" ++ fmt_fixed 0 interval ++ " microsec " ++
      fmt_fixed 1 (double_div (double_mul (double_of_Z 100) measured) interval)
      ++ "% " ++ fmt_dec (wrap64 (Unix.hitCount info)) ++ "x" ++ newline)%string)
  /\
  (forall frequency tid start end_ st line,
     let result :=
       Windows.destructor frequency tid (Windows.constructor start) end_ st in
     In line (Windows.printed (snd result)) ->
     let info := Windows.counted start end_ (Windows.threadInfo st) in
     let oo := Windows.s_ooFrequency (fst result) in
     let interval :=
       float_mul
         (float_of_Z (wrap64 (end_ - Windows.lastReportTime info))) oo in
     let measured := float_mul (float_of_Z (Windows.accumulator info)) oo in
     line =
     ("TID 0x" ++ fmt_hex (tid mod 2 ^ 32) ++
      " time spent in " ++ dquote ++ Windows.name info ++ dquote ++ ": " ++
      fmt_fixed 0 (float_mul measured (float_of_Z 1000000)) ++ "/" ++
      fmt_fixed 0 (float_mul interval (float_of_Z 1000000)) ++ " microsec " ++
      fmt_fixed 1 (float_div (float_mul (float_of_Z 100) measured) interval) ++
      "% " ++ fmt_dec (wrap32 (Windows.hitCount info)) ++ "x" ++ newline)%string).
Proof.
  split.
  - intros tid start end_ st line.
    destruct (destructor_outcome tid start end_ st) as [H|H U|H U]; simpl.
    + intros [].
    + rewrite printed_initialize. intros [].
    + rewrite printed_app, printed_initialize. simpl. intros [<-|[]].
      apply report_layout.
  - intros frequency tid start end_ st line. cbv zeta.
    destruct (win_destructor_outcome frequency tid start end_ st)
      as [H|H U|H U]; simpl.
    + intros [].
    + rewrite win_printed_initialize. intros [].
    + rewrite win_printed_app, win_printed_initialize. simpl. intros [<-|[]].
      apply win_report_layout.
Qed.

Lemma report_line_layout_witness :
  (("TID 42 time spent in " ++ dquote ++ "db" ++ dquote ++
    ": 3/1000002 microsec 0.0% 2x" ++ newline)%string
   =
   ("TID " ++ fmt_dec (wrap64 42) ++
    " time spent in " ++ dquote ++ "db" ++ dquote ++ ": " ++
    fmt_fixed 0 (double_of_Z 3) ++ "/" ++
    fmt_fixed 0 (double_div (double_of_Z 1000001500) (double_of_Z 1000)) ++
    " microsec " ++
    fmt_fixed 1 (double_div (double_mul (double_of_Z 100) (double_of_Z 3))
                   (double_div (double_of_Z 1000001500) (double_of_Z 1000)))
    ++ "% " ++ fmt_dec (wrap64 2) ++ "x" ++ newline)%string)
  /\
  (("TID 0xbeef time spent in " ++ dquote ++ "db" ++ dquote ++
    ": 300/1000300 microsec 0.0% 3x" ++ newline)%string
   =
   (let oo := float_div (float_of_Z 1) (float_of_Z 10000000) in
    let interval := float_mul (float_of_Z 10003000) oo in
    let measured := float_mul (float_of_Z 3000) oo in
    "TID 0x" ++ fmt_hex (48879 mod 2 ^ 32) ++
    " time spent in " ++ dquote ++ "db" ++ dquote ++ ": " ++
    fmt_fixed 0 (float_mul measured (float_of_Z 1000000)) ++ "/" ++
    fmt_fixed 0 (float_mul interval (float_of_Z 1000000)) ++ " microsec " ++
    fmt_fixed 1 (float_div (float_mul (float_of_Z 100) measured) interval) ++
    "% " ++ fmt_dec (wrap32 3) ++ "x" ++ newline)%string).
Proof.
  split.
  - apply (proj1 report_line_layout 42 (Unix.mk_timespec 6 0)
             (Unix.mk_timespec 6 1500)
             (Unix.mk_State 1000000
                (Unix.mk_ThreadInfo (Unix.mk_timespec 5 0) 2 1 "db"))).
    vm_compute. left. reflexivity.
  - apply (proj2 report_line_layout 10000000 48879 10007000 10008000
             (Windows.mk_State
                (float_div (float_of_Z 1) (float_of_Z 10000000)) 10000000
                (Windows.mk_ThreadInfo 5000 2000 2 "db"))).
    vm_compute. left. reflexivity.
Defined.

(** C8.  With [ENABLE_API_PROFILER] off, [DEFINE_API_PROFILER] defines
    no record and [API_PROFILER] no guard, and running any code leaves
    the profiler state as it was, shows no profiler event, and gives the
    clock, state and observations of the same code with the
    instrumentation removed (built with the switch either way).  Holds
    in both builds. *)
Theorem disabled_profiler_is_inert :
  (forall name now ticks,
     DEFINE_API_PROFILER false Unix.DEFINE_API_PROFILER name = None /\
     API_PROFILER false Unix.constructor now = None /\
     DEFINE_API_PROFILER false Windows.DEFINE_API_PROFILER name = None /\
     API_PROFILER false Windows.constructor ticks = None)
  /\
  (forall (Action : Type) tid (c : Code Action) clock st flag,
     let '(clock', st', obs) :=
       exec false Unix.constructor (Unix.destructor tid)
         Unix.clock_gettime c clock st in
     st' = st /\ profiler_events obs = [] /\
     exec flag Unix.constructor (Unix.destructor tid)
       Unix.clock_gettime (erase c) clock st = (clock', st', obs))
  /\
  (forall (Action : Type) frequency tid (c : Code Action) clock st flag,
     let '(clock', st', obs) :=
       exec false Windows.constructor (Windows.destructor frequency tid)
         Windows.QueryPerformanceCounter c clock st in
     st' = st /\ profiler_events obs = [] /\
     exec flag Windows.constructor (Windows.destructor frequency tid)
       Windows.QueryPerformanceCounter (erase c) clock st = (clock', st', obs)).
Proof.
  split; [intros; repeat split|split].
  - intros Action tid c clock st flag.
    pose proof (exec_disabled _ _ _ _ _ Unix.constructor (Unix.destructor tid)
                  Unix.clock_gettime c clock st) as H.
    destruct (exec false Unix.constructor (Unix.destructor tid)
                Unix.clock_gettime c clock st) as [[clock' st'] obs].
    destruct H as (E & Hs & Hp). repeat split; try assumption.
    rewrite <- E. apply exec_erased.
  - intros Action frequency tid c clock st flag.
    pose proof (exec_disabled _ _ _ _ _ Windows.constructor
                  (Windows.destructor frequency tid)
                  Windows.QueryPerformanceCounter c clock st) as H.
    destruct (exec false Windows.constructor (Windows.destructor frequency tid)
                Windows.QueryPerformanceCounter c clock st)
      as [[clock' st'] obs].
    destruct H as (E & Hs & Hp). repeat split; try assumption.
    rewrite <- E. apply exec_erased.
Qed.

(** C9.  When [Flush] finds the record's [lastReportTime] unset it
    prints nothing and leaves [accumulator] and [hitCount] as the
    destructor has just updated them, setting [lastReportTime] to the
    guard's start; and whatever a silent stretch of steps (such
    first-call flushes included) has accumulated is what the next
    printed line reports: the counters of the line are the initial ones
    plus every guard since, the printing one included.  Holds in both
    builds. *)
Theorem first_call_keeps_counters :
  ((forall tid this end_ st,
      Unix.unset (Unix.lastReportTime (Unix.threadInfo st)) ->
      let result := Unix.Flush tid this end_ st in
      Unix.printed (snd result) = [] /\
      Unix.threadInfo (fst result) =
        Unix.mk_ThreadInfo (Unix.m_start this)
          (Unix.accumulator (Unix.threadInfo st))
          (Unix.hitCount (Unix.threadInfo st))
          (Unix.name (Unix.threadInfo st)))
   /\
   (forall tid ops start end_ st line,
      Unix.printed (snd (Unix.run tid ops st)) = [] ->
      in_ll (Unix.hitCount (Unix.threadInfo st)) ->
      in_ll (Unix.accumulator (Unix.threadInfo st)) ->
      let st1 := fst (Unix.run tid ops st) in
      In line (Unix.printed
                 (snd (Unix.destructor tid (Unix.constructor start) end_ st1))) ->
      line =
      Unix.report tid
        (Unix.mk_ThreadInfo
           (Unix.lastReportTime (Unix.threadInfo st1))
           (wrap64 (Unix.accumulator (Unix.threadInfo st)
                    + Unix.total_elapsed (Unix.scopes ops ++ [(start, end_)])))
           (wrap64 (Unix.hitCount (Unix.threadInfo st)
                    + Z.of_nat (List.length (Unix.scopes ops)) + 1))
           (Unix.name (Unix.threadInfo st)))
        end_))
  /\
  ((forall frequency tid this end_ st,
      Windows.unset (Windows.lastReportTime (Windows.threadInfo st)) ->
      let result := Windows.Flush frequency tid this end_ st in
      Windows.printed (snd result) = [] /\
      Windows.threadInfo (fst result) =
        Windows.mk_ThreadInfo (Windows.m_start this)
          (Windows.accumulator (Windows.threadInfo st))
          (Windows.hitCount (Windows.threadInfo st))
          (Windows.name (Windows.threadInfo st)))
   /\
   (forall frequency tid ops start end_ st line,
      Windows.printed (snd (Windows.run frequency tid ops st)) = [] ->
      in_ll (Windows.hitCount (Windows.threadInfo st)) ->
      in_ll (Windows.accumulator (Windows.threadInfo st)) ->
      let st1 := fst (Windows.run frequency tid ops st) in
      let result :=
        Windows.destructor frequency tid (Windows.constructor start) end_ st1 in
      In line (Windows.printed (snd result)) ->
      line =
      Windows.report tid (Windows.s_ooFrequency (fst result))
        (Windows.mk_ThreadInfo
           (Windows.lastReportTime (Windows.threadInfo st1))
           (wrap64 (Windows.accumulator (Windows.threadInfo st)
                    + Windows.total_elapsed
                        (Windows.scopes ops ++ [(start, end_)])))
           (wrap64 (Windows.hitCount (Windows.threadInfo st)
                    + Z.of_nat (List.length (Windows.scopes ops)) + 1))
           (Windows.name (Windows.threadInfo st)))
        end_)).
Proof.
  split; split.
  - intros tid this end_ st U. cbv zeta. rewrite Flush_first by assumption.
    simpl. split; [apply printed_initialize | reflexivity].
  - intros tid ops start end_ st line Hp Hh Ha. cbv zeta.
    destruct (run_counts tid ops st Hp Hh Ha) as (Eh & Ea & En).
    set (st1 := fst (Unix.run tid ops st)) in *.
    destruct (destructor_outcome tid start end_ st1) as [H|H U|H U]; simpl.
    + intros [].
    + rewrite printed_initialize. intros [].
    + rewrite printed_app, printed_initialize. simpl. intros [<-|[]].
      unfold Unix.counted. rewrite Eh, Ea, En, !wrap64_add_l.
      rewrite total_elapsed_app. unfold Unix.total_elapsed at 3. simpl.
      do 2 f_equal; f_equal; lia.
  - intros frequency tid this end_ st U. cbv zeta.
    rewrite win_Flush_first by assumption.
    simpl. split; [apply win_printed_initialize | reflexivity].
  - intros frequency tid ops start end_ st line Hp Hh Ha. cbv zeta.
    destruct (win_run_counts frequency tid ops st Hp Hh Ha) as (Eh & Ea & En).
    set (st1 := fst (Windows.run frequency tid ops st)) in *.
    destruct (win_destructor_outcome frequency tid start end_ st1)
      as [H|H U|H U]; simpl.
    + intros [].
    + rewrite win_printed_initialize. intros [].
    + rewrite win_printed_app, win_printed_initialize. simpl. intros [<-|[]].
      unfold Windows.counted. rewrite Eh, Ea, En, !wrap64_add_l.
      rewrite win_total_elapsed_app. unfold Windows.total_elapsed at 3. simpl.
      do 2 f_equal; f_equal; lia.
Qed.

Lemma first_call_keeps_counters_witness :
  (let st := Unix.mk_State 0
               (Unix.mk_ThreadInfo (Unix.mk_timespec 0 0) 2 1 "db") in
   let result :=
     Unix.Flush 42 (Unix.constructor (Unix.mk_timespec 5 0))
       (Unix.mk_timespec 5 2500) st in
   Unix.printed (snd result) = [] /\
   Unix.threadInfo (fst result) =
     Unix.mk_ThreadInfo (Unix.mk_timespec 5 0) 2 1 "db")
  /\
  (let ops := [Unix.Scope (Unix.mk_timespec 5 0) (Unix.mk_timespec 5 2500)] in
   let st1 := fst (Unix.run 42 ops (Unix.initial "db")) in
   ("TID 42 time spent in " ++ dquote ++ "db" ++ dquote ++
    ": 3/1000002 microsec 0.0% 2x" ++ newline)%string
   =
   Unix.report 42
     (Unix.mk_ThreadInfo
        (Unix.lastReportTime (Unix.threadInfo st1))
        (wrap64 (0 + Unix.total_elapsed
                       (Unix.scopes ops ++
                        [(Unix.mk_timespec 6 0, Unix.mk_timespec 6 1500)])))
        (wrap64 (0 + Z.of_nat (List.length (Unix.scopes ops)) + 1))
        "db")
     (Unix.mk_timespec 6 1500))
  /\
  (let st := Windows.mk_State (S754_zero false) 0
               (Windows.mk_ThreadInfo 0 1000 1 "db") in
   let result :=
     Windows.Flush 10000000 7 (Windows.constructor 5000) 6000 st in
   Windows.printed (snd result) = [] /\
   Windows.threadInfo (fst result) = Windows.mk_ThreadInfo 5000 1000 1 "db").
Proof.
  split; [|split]; cbv zeta.
  - apply (proj1 (proj1 first_call_keeps_counters) 42
             (Unix.constructor (Unix.mk_timespec 5 0)) (Unix.mk_timespec 5 2500)
             (Unix.mk_State 0
                (Unix.mk_ThreadInfo (Unix.mk_timespec 0 0) 2 1 "db"))).
    split; reflexivity.
  - apply (proj2 (proj1 first_call_keeps_counters) 42
             [Unix.Scope (Unix.mk_timespec 5 0) (Unix.mk_timespec 5 2500)]
             (Unix.mk_timespec 6 0) (Unix.mk_timespec 6 1500)
             (Unix.initial "db")).
    + reflexivity.
    + ll_bounds.
    + ll_bounds.
    + vm_compute. left. reflexivity.
  - apply (proj1 (proj2 first_call_keeps_counters) 10000000 7
             (Windows.constructor 5000) 6000
             (Windows.mk_State (S754_zero false) 0
                (Windows.mk_ThreadInfo 0 1000 1 "db"))).
    reflexivity.
Defined.

(** C10 fails on the code once the clock has passed 2^53 ns.  The guard
    from 9007200 s + 1001 ns to 9007200 s + 1999 ns lasts 998 ns, and
    floor (998 / 1000) = 0; but the destructor rounds both readings to
    [double] before it subtracts them, to ...1000 and ...2000, and adds
    1 microsecond to [accumulator].  ([Flush] converts the same kind of
    readings with [1000000000LL], in integers.) *)
Theorem sub_microsecond_guard_adds_a_microsecond :
  let start := Unix.mk_timespec 9007200 1001 in
  let end_ := Unix.mk_timespec 9007200 1999 in
  let st := Unix.mk_State 1000000
              (Unix.mk_ThreadInfo (Unix.mk_timespec 9007200 0) 0 0 "db") in
  let result := Unix.destructor 42 (Unix.constructor start) end_ st in
  Unix.ns end_ - Unix.ns start = 998 /\
  (Unix.ns end_ - Unix.ns start) / 1000 = 0 /\
  Unix.NanoSec start = 9007200000001000 /\
  Unix.NanoSec end_ = 9007200000002000 /\
  Unix.printed (snd result) = [] /\
  Unix.accumulator (Unix.threadInfo (fst result)) = 1 /\
  Unix.hitCount (Unix.threadInfo (fst result)) = 1.
Proof.
  cbv zeta.
  refine (conj _ (conj _ (conj _ (conj _ (conj _ (conj _ _))))));
    vm_compute; reflexivity.
Qed.

(** X9.  On Unix, with clock readings [start <= end], a destruction
    adds the floor of (endNanoSec - startNanoSec) / 1000 to
    [accumulator] and one to [hitCount] (as 64-bit values), where
    endNanoSec and startNanoSec are the destructor's own conversions of
    the readings: the record shows it when nothing is printed, the
    printed line otherwise; when that difference is below 1000 the guard
    adds 0 microseconds and still counts one hit.  While the clock is
    below 2^53 nanoseconds the difference computed is the exact one. *)
Theorem unix_microsecond_truncation :
  forall tid start end_ st,
    Unix.clock_time start -> Unix.clock_time end_ ->
    Unix.ns start <= Unix.ns end_ ->
    let result := Unix.destructor tid (Unix.constructor start) end_ st in
    let info := Unix.threadInfo st in
    let elapsedNanoseconds := Unix.NanoSec end_ - Unix.NanoSec start in
    let added := elapsedNanoseconds / 1000 in
    (Unix.printed (snd result) = [] ->
     Unix.accumulator (Unix.threadInfo (fst result))
       = wrap64 (Unix.accumulator info + added) /\
     Unix.hitCount (Unix.threadInfo (fst result))
       = wrap64 (Unix.hitCount info + 1)) /\
    (forall line, In line (Unix.printed (snd result)) ->
       line = Unix.report tid
                (Unix.mk_ThreadInfo (Unix.lastReportTime info)
                   (wrap64 (Unix.accumulator info + added))
                   (wrap64 (Unix.hitCount info + 1))
                   (Unix.name info))
                end_) /\
    0 <= elapsedNanoseconds /\
    (elapsedNanoseconds < 1000 -> added = 0) /\
    (Unix.ns end_ < 2 ^ 53 ->
     elapsedNanoseconds = Unix.ns end_ - Unix.ns start).
Proof.
  intros tid start end_ st Hstart Hend Hle. cbv zeta.
  destruct (elapsed_floor start end_ Hstart Hend Hle) as [Ef _].
  pose proof (NanoSec_mono start end_ Hstart Hend Hle) as Hm.
  split; [|split; [|split; [|split]]].
  - intros Hp.
    destruct (destructor_counts tid start end_ st Hp) as (Eh & Ea & _).
    rewrite Eh, Ea, Ef. auto.
  - intros line.
    destruct (destructor_outcome tid start end_ st) as [H|H U|H U]; simpl.
    + intros [].
    + rewrite printed_initialize. intros [].
    + rewrite printed_app, printed_initialize. simpl. intros [<-|[]].
      unfold Unix.counted. now rewrite Ef.
  - lia.
  - intros Hlt. apply Z.div_small. lia.
  - intros H53. pose proof (ns_range start Hstart).
    rewrite !NanoSec_exact by (assumption || lia). reflexivity.
Qed.

Lemma unix_microsecond_truncation_witness :
  let st := Unix.mk_State 1000000
              (Unix.mk_ThreadInfo (Unix.mk_timespec 5 0) 7 3 "db") in
  let result :=
    Unix.destructor 42 (Unix.constructor (Unix.mk_timespec 5 1000))
      (Unix.mk_timespec 5 1999) st in
  Unix.accumulator (Unix.threadInfo (fst result)) = wrap64 (7 + 999 / 1000) /\
  Unix.hitCount (Unix.threadInfo (fst result)) = wrap64 (3 + 1).
Proof.
  cbv zeta.
  apply (unix_microsecond_truncation 42 (Unix.mk_timespec 5 1000)
           (Unix.mk_timespec 5 1999)
           (Unix.mk_State 1000000
              (Unix.mk_ThreadInfo (Unix.mk_timespec 5 0) 7 3 "db"))).
  - unfold Unix.clock_time; simpl; lia.
  - unfold Unix.clock_time; simpl; lia.
  - unfold Unix.ns; simpl; lia.
  - reflexivity.
Defined.

(* ================================================================== *)
(** * Further properties *)

Section UnixMore.
Import Unix.
Variable tid : Z.

Lemma step_name op st :
  name (threadInfo (fst (step tid op st))) = name (threadInfo st).
Proof.
  destruct op as [start end_|]; simpl.
  - destruct (destructor_outcome tid start end_ st) as [H|H U|H U]; reflexivity.
  - now rewrite initialize_info.
Qed.

(** A silent stretch leaves a set [lastReportTime] alone. *)
Lemma silent_keeps_last ops st :
  printed (snd (run tid ops st)) = [] ->
  ~ unset (lastReportTime (threadInfo st)) ->
  lastReportTime (threadInfo (fst (run tid ops st)))
    = lastReportTime (threadInfo st).
Proof.
  revert st. induction ops as [|op ops IH]; intros st Hp Hu; [reflexivity|].
  rewrite run_cons in *. simpl fst. simpl snd in Hp.
  rewrite printed_app in Hp. apply app_eq_nil in Hp as [Hp1 Hp2].
  assert (E : lastReportTime (threadInfo (fst (step tid op st)))
              = lastReportTime (threadInfo st)).
  { destruct op as [start end_|]; simpl in *.
    - destruct (destructor_outcome tid start end_ st) as [H|H U|H U];
        simpl in *.
      + reflexivity.
      + contradiction.
      + rewrite printed_app in Hp1. apply app_eq_nil in Hp1 as [_ C].
        discriminate.
    - now rewrite initialize_info. }
  rewrite IH; [exact E | exact Hp2 | now rewrite E].
Qed.

Lemma total_elapsed_cons g gs :
  total_elapsed (g :: gs) = elapsed (fst g) (snd g) + total_elapsed gs.
Proof. reflexivity. Qed.

Lemma total_ns_cons g gs :
  total_ns (g :: gs) = (ns (snd g) - ns (fst g)) + total_ns gs.
Proof. reflexivity. Qed.

End UnixMore.

Section WindowsMore.
Import Windows.
Variable frequency : Z.
Variable tid : Z.

Lemma win_step_name op st :
  name (threadInfo (fst (step frequency tid op st))) = name (threadInfo st).
Proof.
  destruct op as [start end_|]; simpl.
  - destruct (win_destructor_outcome frequency tid start end_ st)
      as [H|H U|H U]; reflexivity.
  - now rewrite win_initialize_info.
Qed.

Lemma win_silent_keeps_last ops st :
  printed (snd (run frequency tid ops st)) = [] ->
  ~ unset (lastReportTime (threadInfo st)) ->
  lastReportTime (threadInfo (fst (run frequency tid ops st)))
    = lastReportTime (threadInfo st).
Proof.
  revert st. induction ops as [|op ops IH]; intros st Hp Hu; [reflexivity|].
  rewrite win_run_cons in *. simpl fst. simpl snd in Hp.
  rewrite win_printed_app in Hp. apply app_eq_nil in Hp as [Hp1 Hp2].
  assert (E : lastReportTime (threadInfo (fst (step frequency tid op st)))
              = lastReportTime (threadInfo st)).
  { destruct op as [start end_|]; simpl in *.
    - destruct (win_destructor_outcome frequency tid start end_ st)
        as [H|H U|H U]; simpl in *.
      + reflexivity.
      + contradiction.
      + rewrite win_printed_app in Hp1. apply app_eq_nil in Hp1 as [_ C].
        discriminate.
    - now rewrite win_initialize_info. }
  rewrite IH; [exact E | exact Hp2 | now rewrite E].
Qed.

End WindowsMore.

(** X1.  The destructor's conversion of a clock reading to nanoseconds,
    done in [double], is off by at most 256 ns for any reading below
    2^32 s, exact below 2^53 ns, and never reverses the order of two
    readings. *)
Theorem NanoSec_accuracy :
  forall a b,
    Unix.clock_time a -> Unix.clock_time b ->
    Z.abs (Unix.NanoSec a - Unix.ns a) <= 256 /\
    (Unix.ns a < 2 ^ 53 -> Unix.NanoSec a = Unix.ns a) /\
    (Unix.ns a <= Unix.ns b -> Unix.NanoSec a <= Unix.NanoSec b).
Proof.
  intros a b Ha Hb. split; [|split].
  - now apply NanoSec_error.
  - now apply NanoSec_exact.
  - now apply NanoSec_mono.
Qed.

Lemma NanoSec_accuracy_witness :
  Z.abs (Unix.NanoSec (Unix.mk_timespec 9007200 1001)
         - Unix.ns (Unix.mk_timespec 9007200 1001)) <= 256 /\
  (Unix.ns (Unix.mk_timespec 9007200 1001) < 2 ^ 53 ->
   Unix.NanoSec (Unix.mk_timespec 9007200 1001)
     = Unix.ns (Unix.mk_timespec 9007200 1001)) /\
  (Unix.ns (Unix.mk_timespec 9007200 1001)
     <= Unix.ns (Unix.mk_timespec 9007200 1999) ->
   Unix.NanoSec (Unix.mk_timespec 9007200 1001)
     <= Unix.NanoSec (Unix.mk_timespec 9007200 1999)).
Proof.
  apply (NanoSec_accuracy (Unix.mk_timespec 9007200 1001)
           (Unix.mk_timespec 9007200 1999));
    unfold Unix.clock_time; simpl; lia.
Defined.

(** X2.  Over any sequence of steps, whatever is flushed and reset, the
    record keeps the name it was defined with.  Holds in both builds. *)
Theorem run_keeps_name :
  (forall tid ops st,
     Unix.name (Unix.threadInfo (fst (Unix.run tid ops st)))
       = Unix.name (Unix.threadInfo st))
  /\
  (forall frequency tid ops st,
     Windows.name (Windows.threadInfo (fst (Windows.run frequency tid ops st)))
       = Windows.name (Windows.threadInfo st)).
Proof.
  split.
  - intros tid ops. induction ops as [|op ops IH]; intros st; [reflexivity|].
    rewrite run_cons. simpl fst. now rewrite IH, step_name.
  - intros frequency tid ops.
    induction ops as [|op ops IH]; intros st; [reflexivity|].
    rewrite win_run_cons. simpl fst. now rewrite IH, win_step_name.
Qed.

(** X3.  Two consecutive reports of a record: after a destruction that
    prints at [end0] (a set timestamp), a silent stretch of steps and a
    destruction that prints again, the second line reports exactly the
    guards destroyed since the first (their number and the sum of their
    elapsed deltas, the printing guard included, as 64-bit values) over
    the interval that starts at [end0], and more than [s_reportInterval]
    has elapsed between the two.  Holds in both builds. *)
Theorem reports_partition_guards :
  (forall tid start0 end0 st ops start end_ line,
     let st0 := fst (Unix.destructor tid (Unix.constructor start0) end0 st) in
     let st1 := fst (Unix.run tid ops st0) in
     Unix.printed
       (snd (Unix.destructor tid (Unix.constructor start0) end0 st)) <> [] ->
     ~ Unix.unset end0 ->
     Unix.printed (snd (Unix.run tid ops st0)) = [] ->
     In line (Unix.printed
                (snd (Unix.destructor tid (Unix.constructor start) end_ st1))) ->
     line =
       Unix.report tid
         (Unix.mk_ThreadInfo end0
            (wrap64 (Unix.total_elapsed (Unix.scopes ops ++ [(start, end_)])))
            (wrap64 (Z.of_nat (List.length (Unix.scopes ops)) + 1))
            (Unix.name (Unix.threadInfo st)))
         end_ /\
     Unix.s_reportInterval st1 < Unix.elapsed end0 end_)
  /\
  (forall frequency tid start0 end0 st ops start end_ line,
     let st0 :=
       fst (Windows.destructor frequency tid
              (Windows.constructor start0) end0 st) in
     let st1 := fst (Windows.run frequency tid ops st0) in
     let result :=
       Windows.destructor frequency tid (Windows.constructor start) end_ st1 in
     Windows.printed
       (snd (Windows.destructor frequency tid
               (Windows.constructor start0) end0 st)) <> [] ->
     ~ Windows.unset end0 ->
     Windows.printed (snd (Windows.run frequency tid ops st0)) = [] ->
     In line (Windows.printed (snd result)) ->
     line =
       Windows.report tid (Windows.s_ooFrequency (fst result))
         (Windows.mk_ThreadInfo end0
            (wrap64 (Windows.total_elapsed
                       (Windows.scopes ops ++ [(start, end_)])))
            (wrap64 (Z.of_nat (List.length (Windows.scopes ops)) + 1))
            (Windows.name (Windows.threadInfo st)))
         end_ /\
     Windows.s_reportInterval st1 < Windows.elapsed end0 end_).
Proof.
  split.
  - intros tid start0 end0 st ops start end_ line. cbv zeta.
    intros Hp0 Hu Hsil.
    assert (E0 : Unix.threadInfo
                   (fst (Unix.destructor tid (Unix.constructor start0) end0 st))
                 = Unix.mk_ThreadInfo end0 0 0 (Unix.name (Unix.threadInfo st))).
    { destruct (destructor_outcome tid start0 end0 st) as [H|H U|H U];
        simpl in *.
      - now contradiction Hp0.
      - rewrite printed_initialize in Hp0. now contradiction Hp0.
      - reflexivity. }
    set (st0 := fst (Unix.destructor tid (Unix.constructor start0) end0 st)) in *.
    destruct (run_counts tid ops st0 Hsil) as (Eh & Ea & En);
      try (rewrite E0; simpl; ll_bounds).
    pose proof (silent_keeps_last tid ops st0 Hsil) as El.
    rewrite E0 in El, Eh, Ea, En. simpl in El, Eh, Ea, En.
    specialize (El Hu).
    set (st1 := fst (Unix.run tid ops st0)) in *.
    destruct (destructor_outcome tid start end_ st1) as [H|H U|H U]; simpl.
    + intros [].
    + rewrite printed_initialize. intros [].
    + rewrite printed_app, printed_initialize. simpl. intros [<-|[]].
      split.
      * unfold Unix.counted. rewrite Eh, Ea, En, El, ?Z.add_0_l, !wrap64_add_l.
        rewrite total_elapsed_app. unfold Unix.total_elapsed at 3. simpl.
        do 2 f_equal; f_equal; lia.
      * rewrite <- El. exact H.
  - intros frequency tid start0 end0 st ops start end_ line. cbv zeta.
    intros Hp0 Hu Hsil.
    assert (E0 : Windows.threadInfo
                   (fst (Windows.destructor frequency tid
                           (Windows.constructor start0) end0 st))
                 = Windows.mk_ThreadInfo end0 0 0
                     (Windows.name (Windows.threadInfo st))).
    { destruct (win_destructor_outcome frequency tid start0 end0 st)
        as [H|H U|H U]; simpl in *.
      - now contradiction Hp0.
      - rewrite win_printed_initialize in Hp0. now contradiction Hp0.
      - reflexivity. }
    set (st0 := fst (Windows.destructor frequency tid
                       (Windows.constructor start0) end0 st)) in *.
    destruct (win_run_counts frequency tid ops st0 Hsil) as (Eh & Ea & En);
      try (rewrite E0; simpl; ll_bounds).
    pose proof (win_silent_keeps_last frequency tid ops st0 Hsil) as El.
    rewrite E0 in El, Eh, Ea, En. simpl in El, Eh, Ea, En.
    specialize (El Hu).
    set (st1 := fst (Windows.run frequency tid ops st0)) in *.
    destruct (win_destructor_outcome frequency tid start end_ st1)
      as [H|H U|H U]; simpl.
    + intros [].
    + rewrite win_printed_initialize. intros [].
    + rewrite win_printed_app, win_printed_initialize. simpl. intros [<-|[]].
      split.
      * unfold Windows.counted.
        rewrite Eh, Ea, En, El, ?Z.add_0_l, !wrap64_add_l.
        rewrite win_total_elapsed_app. unfold Windows.total_elapsed at 3. simpl.
        do 2 f_equal; f_equal; lia.
      * rewrite <- El. exact H.
Qed.

Lemma reports_partition_guards_witness :
  (let st := Unix.mk_State 1000000
               (Unix.mk_ThreadInfo (Unix.mk_timespec 5 0) 7 3 "db") in
   let ops := [Unix.Scope (Unix.mk_timespec 6 2000) (Unix.mk_timespec 6 5000)] in
   let st0 := fst (Unix.destructor 42 (Unix.constructor (Unix.mk_timespec 6 0))
                     (Unix.mk_timespec 6 1500) st) in
   let st1 := fst (Unix.run 42 ops st0) in
   ("TID 42 time spent in " ++ dquote ++ "db" ++ dquote ++
    ": 6/1000002 microsec 0.0% 2x" ++ newline)%string
   = Unix.report 42
       (Unix.mk_ThreadInfo (Unix.mk_timespec 6 1500)
          (wrap64 (Unix.total_elapsed
                     (Unix.scopes ops ++
                      [(Unix.mk_timespec 7 0, Unix.mk_timespec 7 3000)])))
          (wrap64 (Z.of_nat (List.length (Unix.scopes ops)) + 1))
          "db")
       (Unix.mk_timespec 7 3000) /\
   Unix.s_reportInterval st1
     < Unix.elapsed (Unix.mk_timespec 6 1500) (Unix.mk_timespec 7 3000))
  /\
  (let st := Windows.mk_State
               (float_div (float_of_Z 1) (float_of_Z 10000000)) 10000000
               (Windows.mk_ThreadInfo 5000 2000 2 "db") in
   let ops := [Windows.Scope 10009000 10009500] in
   let st0 := fst (Windows.destructor 10000000 48879
                     (Windows.constructor 10007000) 10008000 st) in
   let st1 := fst (Windows.run 10000000 48879 ops st0) in
   Windows.s_reportInterval st1 < Windows.elapsed 10008000 20009000).
Proof.
  split; cbv zeta.
  - apply (proj1 reports_partition_guards 42
             (Unix.mk_timespec 6 0) (Unix.mk_timespec 6 1500)
             (Unix.mk_State 1000000
                (Unix.mk_ThreadInfo (Unix.mk_timespec 5 0) 7 3 "db"))
             [Unix.Scope (Unix.mk_timespec 6 2000) (Unix.mk_timespec 6 5000)]
             (Unix.mk_timespec 7 0) (Unix.mk_timespec 7 3000)).
    + vm_compute. discriminate.
    + unfold Unix.unset. simpl. lia.
    + vm_compute. reflexivity.
    + vm_compute. left. reflexivity.
  - apply (proj2 reports_partition_guards 10000000 48879 10007000 10008000
             (Windows.mk_State
                (float_div (float_of_Z 1) (float_of_Z 10000000)) 10000000
                (Windows.mk_ThreadInfo 5000 2000 2 "db"))
             [Windows.Scope 10009000 10009500] 20008000 20009000
             (Windows.report 48879
                (float_div (float_of_Z 1) (float_of_Z 10000000))
                (Windows.mk_ThreadInfo 10008000 1500 2 "db") 20009000)).
    + vm_compute. discriminate.
    + unfold Windows.unset. lia.
    + vm_compute. reflexivity.
    + vm_compute. left. reflexivity.
Defined.

(** X4.  What the integer division by 1000 loses: for guards on clock
    readings below 2^53 ns, the microseconds the destructor adds up are
    at most the nanoseconds the guards really spanned, over 1000, and
    fall short of them by less than one microsecond per guard. *)
Theorem truncation_loses_under_a_microsecond_per_guard :
  forall guards,
    Forall Unix.clock_guard guards ->
    Forall (fun g => Unix.ns (snd g) < 2 ^ 53) guards ->
    1000 * Unix.total_elapsed guards <= Unix.total_ns guards /\
    Unix.total_ns guards
      <= 1000 * Unix.total_elapsed guards + 999 * Z.of_nat (List.length guards).
Proof.
  induction guards as [|g guards IH]; intros Hg H53.
  - unfold Unix.total_elapsed, Unix.total_ns. simpl. lia.
  - inversion Hg as [|? ? (Ha & Hb & Hab) Hg']; subst.
    inversion H53 as [|? ? Hlt H53']; subst.
    destruct (IH Hg' H53') as [I1 I2].
    rewrite total_elapsed_cons, total_ns_cons.
    destruct (elapsed_floor (fst g) (snd g) Ha Hb Hab) as [Ef _].
    pose proof (ns_range (fst g) Ha).
    rewrite Ef, !NanoSec_exact by (assumption || lia).
    pose proof (Z.div_mod (Unix.ns (snd g) - Unix.ns (fst g)) 1000 ltac:(lia)).
    pose proof (Z.mod_pos_bound (Unix.ns (snd g) - Unix.ns (fst g)) 1000
                  ltac:(lia)).
    rewrite length_cons, Nat2Z.inj_succ. lia.
Qed.

Lemma truncation_loses_under_a_microsecond_per_guard_witness :
  let guards := [(Unix.mk_timespec 5 1000, Unix.mk_timespec 5 1999);
                 (Unix.mk_timespec 5 2000, Unix.mk_timespec 5 4500)] in
  1000 * Unix.total_elapsed guards <= Unix.total_ns guards /\
  Unix.total_ns guards
    <= 1000 * Unix.total_elapsed guards + 999 * Z.of_nat (List.length guards).
Proof.
  cbv zeta.
  apply (truncation_loses_under_a_microsecond_per_guard
           [(Unix.mk_timespec 5 1000, Unix.mk_timespec 5 1999);
            (Unix.mk_timespec 5 2000, Unix.mk_timespec 5 4500)]).
  - repeat (apply Forall_cons || apply Forall_nil);
      unfold Unix.clock_guard, Unix.clock_time, Unix.ns; simpl; lia.
  - repeat (apply Forall_cons || apply Forall_nil);
      unfold Unix.ns; simpl; lia.
Defined.

(** X5.  In every state that steps with clock readings reach from the
    initial state, [s_reportInterval] is either still 0, and then the
    record's [lastReportTime] is unset, or the one-second value (10^6 on
    Unix, [interval_value] of the frequency on Windows); and
    [lastReportTime] is a clock reading.  So no record is ever flushed
    against an interval of zero once it has a set timestamp. *)
Theorem reachable_states_consistent :
  (forall tid name ops,
     Forall Unix.clock_op ops ->
     let st := fst (Unix.run tid ops (Unix.initial name)) in
     ((Unix.s_reportInterval st = 0 /\
       Unix.unset (Unix.lastReportTime (Unix.threadInfo st)))
      \/ Unix.s_reportInterval st = 1000000) /\
     Unix.clock_time (Unix.lastReportTime (Unix.threadInfo st)))
  /\
  (forall frequency tid name ops,
     Forall Windows.clock_op ops ->
     let st := fst (Windows.run frequency tid ops (Windows.initial name)) in
     ((Windows.s_reportInterval st = 0 /\
       Windows.unset (Windows.lastReportTime (Windows.threadInfo st)))
      \/ Windows.s_reportInterval st = Windows.interval_value frequency) /\
     Windows.clock_time (Windows.lastReportTime (Windows.threadInfo st))).
Proof.
  split.
  - intros tid name ops Hops.
    exact (consistent_run tid ops (Unix.initial name) Hops
             (consistent_initial name)).
  - intros frequency tid name ops Hops.
    exact (win_consistent_run frequency tid ops (Windows.initial name) Hops
             (win_consistent_initial frequency name)).
Qed.

Lemma reachable_states_consistent_witness :
  let st := fst (Unix.run 42
                   [Unix.Scope (Unix.mk_timespec 5 0) (Unix.mk_timespec 5 2500)]
                   (Unix.initial "db")) in
  ((Unix.s_reportInterval st = 0 /\
    Unix.unset (Unix.lastReportTime (Unix.threadInfo st)))
   \/ Unix.s_reportInterval st = 1000000) /\
  Unix.clock_time (Unix.lastReportTime (Unix.threadInfo st)).
Proof.
  apply (proj1 reachable_states_consistent 42 "db"%string
           [Unix.Scope (Unix.mk_timespec 5 0) (Unix.mk_timespec 5 2500)]).
  repeat constructor; simpl; lia.
Defined.

(** X6.  The Windows report interval, computed as a [float] product of
    the counter frequency and one second, is positive, equals the
    frequency when that is below 2^24 ticks per second, and for a
    frequency below 2^(24+k) is within 2^k / 2 ticks of it. *)
Theorem windows_interval_accuracy :
  forall frequency k,
    0 <= k <= 38 -> 0 < frequency < 2 ^ (24 + k) ->
    0 < Windows.interval_value frequency /\
    2 * Z.abs (Windows.interval_value frequency - frequency) <= 2 ^ k /\
    (k = 0 -> Windows.interval_value frequency = frequency).
Proof.
  intros frequency k Hk Hf.
  assert (Hr : Windows.counter_rate frequency).
  { unfold Windows.counter_rate. split; [lia|].
    apply Z.lt_le_trans with (2 ^ (24 + k)); [lia|].
    apply Z.pow_le_mono_r; lia. }
  destruct (win_interval_value frequency Hr) as [Ev Hpos].
  pose proof (round_to_prec_error 24 k frequency ltac:(lia) ltac:(lia)
                ltac:(lia)) as He.
  rewrite Ev. unfold to_float in *. repeat split; try assumption.
  - now rewrite <- Ev.
  - intros ->. change (2 ^ 0) with 1 in He. lia.
Qed.

Lemma windows_interval_accuracy_witness :
  0 < Windows.interval_value 10000000 /\
  2 * Z.abs (Windows.interval_value 10000000 - 10000000) <= 2 ^ 0 /\
  (0 = 0 -> Windows.interval_value 10000000 = 10000000).
Proof.
  apply (windows_interval_accuracy 10000000 0); simpl; lia.
Defined.

Section Traces.
Variables Event Action : Type.

Lemma profiler_events_app (o1 o2 : list (Observation Event Action)) :
  profiler_events (o1 ++ o2) = profiler_events o1 ++ profiler_events o2.
Proof. unfold profiler_events. apply flat_map_app. Qed.

Lemma profiler_events_map (events : list Event) :
  profiler_events (map (@Profiler Event Action) events) = events.
Proof.
  induction events as [|e events IH]; [reflexivity|].
  unfold profiler_events in *. simpl. now rewrite IH.
Qed.

Lemma guards_of_forward (c : Code Action) clock :
  forward c ->
  clock <= fst (guards_of c clock) /\
  Forall (fun g => clock <= fst g /\ fst g <= snd g /\
                   snd g <= fst (guards_of c clock))
         (snd (guards_of c clock)).
Proof.
  revert clock. induction c as [|a d|c1 IH1 c2 IH2|body IH];
    intros clock Hf; simpl in *.
  - split; [lia | constructor].
  - split; [lia | constructor].
  - destruct Hf as [Hf1 Hf2].
    specialize (IH1 clock Hf1).
    destruct (guards_of c1 clock) as [k1 g1]. simpl in IH1.
    specialize (IH2 k1 Hf2).
    destruct (guards_of c2 k1) as [k2 g2]. simpl in *.
    destruct IH1 as [L1 F1], IH2 as [L2 F2].
    split; [lia|]. apply Forall_app. split.
    + eapply Forall_impl; [|exact F1]. simpl. intros g; lia.
    + eapply Forall_impl; [|exact F2]. simpl. intros g; lia.
  - specialize (IH clock Hf).
    destruct (guards_of body clock) as [k1 g1]. simpl in *.
    destruct IH as [L F]. split; [lia|]. apply Forall_app. split.
    + exact F.
    + constructor; [simpl; lia | constructor].
Qed.

End Traces.

Lemma run_app_eq tid ops1 ops2 st st1 e1 st2 e2 :
  Unix.run tid ops1 st = (st1, e1) -> Unix.run tid ops2 st1 = (st2, e2) ->
  Unix.run tid (ops1 ++ ops2) st = (st2, e1 ++ e2).
Proof.
  intros H1 H2. rewrite run_app, H1. cbn [fst snd]. rewrite H2. reflexivity.
Qed.

Lemma run_one_eq tid start end_ st st1 e1 :
  Unix.destructor tid (Unix.constructor start) end_ st = (st1, e1) ->
  Unix.run tid [Unix.Scope start end_] st = (st1, e1).
Proof.
  intros D. cbn [Unix.run Unix.step]. rewrite D. now rewrite app_nil_r.
Qed.

Lemma exec_unix_trace (Action : Type) tid (c : Code Action) :
  forall clock st clock' st' obs,
    exec true Unix.constructor (Unix.destructor tid) Unix.clock_gettime c clock st = (clock', st', obs) ->
    clock' = fst (guards_of c clock) /\
    Unix.run tid (Unix.scope_ops (snd (guards_of c clock))) st
      = (st', profiler_events obs).
Proof.
  induction c as [|a d|c1 IH1 c2 IH2|body IH];
    intros clock st clock' st' obs E; cbn [exec API_PROFILER] in E.
  - inversion E; subst. split; reflexivity.
  - inversion E; subst. split; reflexivity.
  - destruct (exec true Unix.constructor (Unix.destructor tid) Unix.clock_gettime c1 clock st) as [[k1 s1] o1] eqn:E1.
    destruct (exec true Unix.constructor (Unix.destructor tid) Unix.clock_gettime c2 k1 s1) as [[k2 s2] o2] eqn:E2.
    inversion E; subst. clear E.
    destruct (IH1 _ _ _ _ _ E1) as [K1 R1].
    destruct (IH2 _ _ _ _ _ E2) as [K2 R2].
    cbn [guards_of].
    destruct (guards_of c1 clock) as [k1' g1]. cbn [fst snd] in *. subst k1'.
    destruct (guards_of c2 k1) as [k2' g2]. cbn [fst snd] in *. subst k2'.
    split; [reflexivity|].
    unfold Unix.scope_ops in *. rewrite map_app, profiler_events_app.
    now apply run_app_eq with (st1 := s1).
  - destruct (exec true Unix.constructor (Unix.destructor tid) Unix.clock_gettime body clock st) as [[k1 s1] o1] eqn:E1.
    destruct (Unix.destructor tid (Unix.constructor (Unix.clock_gettime clock))
                (Unix.clock_gettime k1) s1) as [s2 ev] eqn:D.
    inversion E; subst. clear E.
    destruct (IH _ _ _ _ _ E1) as [K1 R1].
    cbn [guards_of].
    destruct (guards_of body clock) as [k1' g1]. cbn [fst snd] in *. subst k1'.
    split; [reflexivity|].
    unfold Unix.scope_ops in *.
    rewrite map_app, profiler_events_app, profiler_events_map.
    apply run_app_eq with (st1 := s1); [exact R1|].
    cbn [map fst snd]. now apply run_one_eq.
Qed.

Lemma win_run_app_eq frequency tid ops1 ops2 st st1 e1 st2 e2 :
  Windows.run frequency tid ops1 st = (st1, e1) -> Windows.run frequency tid ops2 st1 = (st2, e2) ->
  Windows.run frequency tid (ops1 ++ ops2) st = (st2, e1 ++ e2).
Proof.
  intros H1 H2. rewrite win_run_app, H1. cbn [fst snd]. rewrite H2. reflexivity.
Qed.

Lemma win_run_one_eq frequency tid start end_ st st1 e1 :
  Windows.destructor frequency tid (Windows.constructor start) end_ st = (st1, e1) ->
  Windows.run frequency tid [Windows.Scope start end_] st = (st1, e1).
Proof.
  intros D. cbn [Windows.run Windows.step]. rewrite D. now rewrite app_nil_r.
Qed.

Lemma exec_windows_trace (Action : Type) frequency tid (c : Code Action) :
  forall clock st clock' st' obs,
    exec true Windows.constructor (Windows.destructor frequency tid) Windows.QueryPerformanceCounter c clock st = (clock', st', obs) ->
    clock' = fst (guards_of c clock) /\
    Windows.run frequency tid (Windows.scope_ops (snd (guards_of c clock))) st
      = (st', profiler_events obs).
Proof.
  induction c as [|a d|c1 IH1 c2 IH2|body IH];
    intros clock st clock' st' obs E; cbn [exec API_PROFILER] in E.
  - inversion E; subst. split; reflexivity.
  - inversion E; subst. split; reflexivity.
  - destruct (exec true Windows.constructor (Windows.destructor frequency tid) Windows.QueryPerformanceCounter c1 clock st) as [[k1 s1] o1] eqn:E1.
    destruct (exec true Windows.constructor (Windows.destructor frequency tid) Windows.QueryPerformanceCounter c2 k1 s1) as [[k2 s2] o2] eqn:E2.
    inversion E; subst. clear E.
    destruct (IH1 _ _ _ _ _ E1) as [K1 R1].
    destruct (IH2 _ _ _ _ _ E2) as [K2 R2].
    cbn [guards_of].
    destruct (guards_of c1 clock) as [k1' g1]. cbn [fst snd] in *. subst k1'.
    destruct (guards_of c2 k1) as [k2' g2]. cbn [fst snd] in *. subst k2'.
    split; [reflexivity|].
    unfold Windows.scope_ops in *. rewrite map_app, profiler_events_app.
    now apply win_run_app_eq with (st1 := s1).
  - destruct (exec true Windows.constructor (Windows.destructor frequency tid) Windows.QueryPerformanceCounter body clock st) as [[k1 s1] o1] eqn:E1.
    destruct (Windows.destructor frequency tid (Windows.constructor (Windows.QueryPerformanceCounter clock))
                (Windows.QueryPerformanceCounter k1) s1) as [s2 ev] eqn:D.
    inversion E; subst. clear E.
    destruct (IH _ _ _ _ _ E1) as [K1 R1].
    cbn [guards_of].
    destruct (guards_of body clock) as [k1' g1]. cbn [fst snd] in *. subst k1'.
    split; [reflexivity|].
    unfold Windows.scope_ops in *.
    rewrite map_app, profiler_events_app, profiler_events_map.
    apply win_run_app_eq with (st1 := s1); [exact R1|].
    cbn [map fst snd]. now apply win_run_one_eq.
Qed.

(** X7.  With the switch on, running code does to the profiler exactly
    what the destructions of its guards do, taken in the order the
    scopes are left (a nested guard before the one around it), each with
    the clock at its construction and at its destruction; and when
    client code never takes negative time, every guard's construction is
    not after its destruction.  Holds in both builds. *)
Theorem enabled_run_is_guard_trace :
  (forall (Action : Type) tid (c : Code Action) clock st,
     let result :=
       exec true Unix.constructor (Unix.destructor tid)
         Unix.clock_gettime c clock st in
     let trace :=
       Unix.run tid (Unix.scope_ops (snd (guards_of c clock))) st in
     fst (fst result) = fst (guards_of c clock) /\
     snd (fst result) = fst trace /\
     profiler_events (snd result) = snd trace)
  /\
  (forall (Action : Type) frequency tid (c : Code Action) clock st,
     let result :=
       exec true Windows.constructor (Windows.destructor frequency tid)
         Windows.QueryPerformanceCounter c clock st in
     let trace :=
       Windows.run frequency tid
         (Windows.scope_ops (snd (guards_of c clock))) st in
     fst (fst result) = fst (guards_of c clock) /\
     snd (fst result) = fst trace /\
     profiler_events (snd result) = snd trace)
  /\
  (forall (Action : Type) (c : Code Action) clock,
     forward c ->
     Forall (fun g => clock <= fst g /\ fst g <= snd g)
            (snd (guards_of c clock))).
Proof.
  split; [|split].
  - intros Action tid c clock st. cbv zeta.
    destruct (exec true Unix.constructor (Unix.destructor tid)
                Unix.clock_gettime c clock st) as [[k s] o] eqn:E.
    destruct (exec_unix_trace Action tid c _ _ _ _ _ E) as [K R].
    rewrite R. cbn [fst snd]. auto.
  - intros Action frequency tid c clock st. cbv zeta.
    destruct (exec true Windows.constructor (Windows.destructor frequency tid)
                Windows.QueryPerformanceCounter c clock st) as [[k s] o] eqn:E.
    destruct (exec_windows_trace Action frequency tid c _ _ _ _ _ E) as [K R].
    rewrite R. cbn [fst snd]. auto.
  - intros Action c clock Hf.
    destruct (guards_of_forward Action c clock Hf) as [_ F].
    eapply Forall_impl; [|exact F]. simpl. intros g; lia.
Qed.

Lemma enabled_run_is_guard_trace_witness :
  let c := Profiled (Seq (Client "a"%string 10)
                         (Profiled (Client "b"%string 20))) in
  Forall (fun g => 5 <= fst g /\ fst g <= snd g) (snd (guards_of c 5)).
Proof.
  cbv zeta.
  apply (proj2 (proj2 enabled_run_is_guard_trace) string
           (Profiled (Seq (Client "a"%string 10)
                          (Profiled (Client "b"%string 20)))) 5).
  simpl. lia.
Defined.

Section UnixWarmUp.
Import Unix.
Variable tid : Z.

Lemma flush_calls_flush events :
  flush_calls (FlushCalled :: events) = S (flush_calls events).
Proof. reflexivity. Qed.

Lemma printed_flush events :
  printed (FlushCalled :: events) = printed events.
Proof. reflexivity. Qed.

Lemma flush_count_step op st :
  stamped_op op ->
  let events := snd (step tid op st) in
  let last' := lastReportTime (threadInfo (fst (step tid op st))) in
  (~ unset (lastReportTime (threadInfo st)) ->
   flush_calls events = List.length (printed events) /\ ~ unset last') /\
  (unset (lastReportTime (threadInfo st)) ->
   printed events = [] /\
   ((flush_calls events = O /\ unset last') \/
    (flush_calls events = 1%nat /\ ~ unset last'))).
Proof.
  intros Hop. cbv zeta. destruct op as [start end_|]; cbn [step].
  - destruct Hop as [Hs He].
    destruct (destructor_outcome tid start end_ st) as [H|H U|H U];
      cbn [fst snd threadInfo lastReportTime].
    + split; [intros Hu; split; [reflexivity | exact Hu]|].
      intros Hu. split; [reflexivity|]. left. split; [reflexivity | exact Hu].
    + split; [intros Hu; contradiction|].
      intros _. split; [apply printed_initialize|]. right.
      split; [|exact Hs].
      now rewrite flush_calls_flush, flush_calls_initialize.
    + split; [|intros Hu; contradiction].
      intros _. split; [|exact He].
      rewrite flush_calls_flush, printed_flush.
      rewrite flush_calls_app, printed_app, flush_calls_initialize,
              printed_initialize.
      reflexivity.
  - cbn [fst snd]. rewrite initialize_info.
    split; [intros Hu; split; [reflexivity | exact Hu]|].
    intros Hu. split; [reflexivity|]. left. split; [reflexivity | exact Hu].
Qed.

Lemma flush_count_run ops st :
  Forall stamped_op ops ->
  (~ unset (lastReportTime (threadInfo st)) ->
   flush_calls (snd (run tid ops st))
     = List.length (printed (snd (run tid ops st)))) /\
  (flush_calls (snd (run tid ops st))
     <= List.length (printed (snd (run tid ops st))) + 1)%nat.
Proof.
  revert st. induction ops as [|op ops IH]; intros st Hops.
  - cbn. split; [reflexivity | lia].
  - inversion Hops as [|? ? Hop Hops']; subst.
    rewrite run_cons. cbn [snd].
    rewrite flush_calls_app, printed_app, length_app.
    destruct (flush_count_step op st Hop) as [Hset Hun].
    destruct (IH (fst (step tid op st)) Hops') as [Iset Iany].
    split.
    + intros Hu. destruct (Hset Hu) as [E Hu']. rewrite E, (Iset Hu'). reflexivity.
    + destruct (unset_dec (lastReportTime (threadInfo st))) as [U|U].
      * destruct (Hun U) as [Ep [[E Hu']|[E Hu']]]; rewrite E, Ep; cbn [List.length].
        -- lia.
        -- rewrite (Iset Hu'). lia.
      * destruct (Hset U) as [E Hu']. rewrite E, (Iset Hu'). lia.
Qed.

End UnixWarmUp.

Section WindowsWarmUp.
Import Windows.
Variable frequency : Z.
Variable tid : Z.

Lemma win_flush_calls_initialize st :
  flush_calls (snd (initialize frequency st)) = O.
Proof.
  rewrite win_initialize_events. destruct (s_reportInterval st =? 0); reflexivity.
Qed.

Lemma win_flush_calls_flush events :
  flush_calls (FlushCalled :: events) = S (flush_calls events).
Proof. reflexivity. Qed.

Lemma win_printed_flush events :
  printed (FlushCalled :: events) = printed events.
Proof. reflexivity. Qed.

Lemma win_flush_count_step op st :
  stamped_op op ->
  let events := snd (step frequency tid op st) in
  let last' := lastReportTime (threadInfo (fst (step frequency tid op st))) in
  (~ unset (lastReportTime (threadInfo st)) ->
   flush_calls events = List.length (printed events) /\ ~ unset last') /\
  (unset (lastReportTime (threadInfo st)) ->
   printed events = [] /\
   ((flush_calls events = O /\ unset last') \/
    (flush_calls events = 1%nat /\ ~ unset last'))).
Proof.
  intros Hop. cbv zeta. destruct op as [start end_|]; cbn [step].
  - destruct Hop as [Hs He].
    destruct (win_destructor_outcome frequency tid start end_ st) as [H|H U|H U];
      cbn [fst snd threadInfo lastReportTime].
    + split; [intros Hu; split; [reflexivity | exact Hu]|].
      intros Hu. split; [reflexivity|]. left. split; [reflexivity | exact Hu].
    + split; [intros Hu; contradiction|].
      intros _. split; [apply win_printed_initialize|]. right.
      split; [|exact Hs].
      now rewrite win_flush_calls_flush, win_flush_calls_initialize.
    + split; [|intros Hu; contradiction].
      intros _. split; [|exact He].
      rewrite win_flush_calls_flush, win_printed_flush.
      rewrite win_flush_calls_app, win_printed_app, win_flush_calls_initialize,
              win_printed_initialize.
      reflexivity.
  - cbn [fst snd]. rewrite win_initialize_info.
    split; [intros Hu; split; [reflexivity | exact Hu]|].
    intros Hu. split; [reflexivity|]. left. split; [reflexivity | exact Hu].
Qed.

Lemma win_flush_count_run ops st :
  Forall stamped_op ops ->
  (~ unset (lastReportTime (threadInfo st)) ->
   flush_calls (snd (run frequency tid ops st))
     = List.length (printed (snd (run frequency tid ops st)))) /\
  (flush_calls (snd (run frequency tid ops st))
     <= List.length (printed (snd (run frequency tid ops st))) + 1)%nat.
Proof.
  revert st. induction ops as [|op ops IH]; intros st Hops.
  - cbn. split; [reflexivity | lia].
  - inversion Hops as [|? ? Hop Hops']; subst.
    rewrite win_run_cons. cbn [snd].
    rewrite win_flush_calls_app, win_printed_app, length_app.
    destruct (win_flush_count_step op st Hop) as [Hset Hun].
    destruct (IH (fst (step frequency tid op st)) Hops') as [Iset Iany].
    split.
    + intros Hu. destruct (Hset Hu) as [E Hu']. rewrite E, (Iset Hu'). reflexivity.
    + destruct (win_unset_dec (lastReportTime (threadInfo st))) as [U|U].
      * destruct (Hun U) as [Ep [[E Hu']|[E Hu']]]; rewrite E, Ep; cbn [List.length].
        -- lia.
        -- rewrite (Iset Hu'). lia.
      * destruct (Hset U) as [E Hu']. rewrite E, (Iset Hu'). lia.
Qed.

End WindowsWarmUp.

(** X8.  A record warms up once: over any sequence of steps whose clock
    readings are not the zero timestamp, all calls of [Flush] print a
    line except at most one, the first-call on the unset record; from a
    record whose [lastReportTime] is set, every call of [Flush] prints.
    Holds in both builds. *)
Theorem one_silent_flush_per_record :
  (forall tid ops st,
     Forall Unix.stamped_op ops ->
     (Unix.flush_calls (snd (Unix.run tid ops st))
        <= List.length (Unix.printed (snd (Unix.run tid ops st))) + 1)%nat /\
     (~ Unix.unset (Unix.lastReportTime (Unix.threadInfo st)) ->
      Unix.flush_calls (snd (Unix.run tid ops st))
        = List.length (Unix.printed (snd (Unix.run tid ops st)))))
  /\
  (forall frequency tid ops st,
     Forall Windows.stamped_op ops ->
     (Windows.flush_calls (snd (Windows.run frequency tid ops st))
        <= List.length
             (Windows.printed (snd (Windows.run frequency tid ops st))) + 1)%nat
     /\
     (~ Windows.unset (Windows.lastReportTime (Windows.threadInfo st)) ->
      Windows.flush_calls (snd (Windows.run frequency tid ops st))
        = List.length
            (Windows.printed (snd (Windows.run frequency tid ops st))))).
Proof.
  split.
  - intros tid ops st Hops.
    destruct (flush_count_run tid ops st Hops) as [A B]. auto.
  - intros frequency tid ops st Hops.
    destruct (win_flush_count_run frequency tid ops st Hops) as [A B]. auto.
Qed.

Lemma one_silent_flush_per_record_witness :
  let ops := [Unix.Scope (Unix.mk_timespec 5 0) (Unix.mk_timespec 5 2500);
              Unix.Scope (Unix.mk_timespec 6 0) (Unix.mk_timespec 6 1500)] in
  (Unix.flush_calls (snd (Unix.run 42 ops (Unix.initial "db")))
     <= List.length (Unix.printed (snd (Unix.run 42 ops (Unix.initial "db")))) + 1)%nat.
Proof.
  cbv zeta.
  apply (proj1 one_silent_flush_per_record 42
           [Unix.Scope (Unix.mk_timespec 5 0) (Unix.mk_timespec 5 2500);
            Unix.Scope (Unix.mk_timespec 6 0) (Unix.mk_timespec 6 1500)]
           (Unix.initial "db")).
  repeat (apply Forall_cons || apply Forall_nil);
    unfold Unix.stamped_op, Unix.unset; simpl; lia.
Defined.
